(** * Account server: credential handling of [server.py]

    A shallow embedding of the validation functions, the password hashing
    and the four request handlers of
    [Assignments/App Development/Server Files/server.py], with the SQLite
    database as explicit state.

    - A Python [str] is a list of code points ([pystr]); [len] is the length
      of that list.
    - [bytes] are lists of integers in [0, 256).
    - The [re] patterns of the validators are kept as regular expressions and
      run by a matcher with Python's reading of [^] and [$].
    - [hashlib.pbkdf2_hmac('sha256', ...)] is written out (SHA-256, HMAC,
      PBKDF2) so that the stored hash is a value of the model.
    - The clock ([CURRENT_TIMESTAMP], ['now']) and [secrets] are inputs of
      each handler call. *)

From Stdlib Require Import ZArith List String Ascii Bool Lia Sorted Permutation.
Import ListNotations.
Local Open Scope Z_scope.

Set Implicit Arguments.

(* ================================================================= *)
(** ** Python strings *)

Module Py.

(** A code point, as [ord] returns it. *)
Definition char := Z.

(** A Python [str]. *)
Definition pystr := list char.

Definition ord (a : ascii) : char := Z.of_N (N_of_ascii a).

(** The [str] of an ASCII literal. *)
Fixpoint str (s : string) : pystr :=
  match s with
  | EmptyString => []
  | String a rest => ord a :: str rest
  end.

(** [len(s)] *)
Definition len (s : pystr) : Z := Z.of_nat (List.length s).

Definition char_eqb (a b : char) : bool := a =? b.

(** [s == t] on strings. *)
Fixpoint str_eqb (s t : pystr) : bool :=
  match s, t with
  | [], [] => true
  | a :: s', b :: t' => char_eqb a b && str_eqb s' t'
  | _, _ => false
  end.

Definition pystr_eq_dec : forall s t : pystr, {s = t} + {s <> t} :=
  list_eq_dec Z.eq_dec.

(** [s.encode('utf-8')]: [None] stands for the [UnicodeEncodeError] that a
    lone surrogate raises (and covers integers that are no code point). *)
Definition encode_char (c : char) : option (list Z) :=
  if c <? 0 then None
  else if c <? 0x80 then Some [c]
  else if c <? 0x800 then
    Some [Z.lor 0xC0 (Z.shiftr c 6); Z.lor 0x80 (Z.land c 0x3F)]
  else if (0xD800 <=? c) && (c <=? 0xDFFF) then None
  else if c <? 0x10000 then
    Some [Z.lor 0xE0 (Z.shiftr c 12);
          Z.lor 0x80 (Z.land (Z.shiftr c 6) 0x3F);
          Z.lor 0x80 (Z.land c 0x3F)]
  else if c <? 0x110000 then
    Some [Z.lor 0xF0 (Z.shiftr c 18);
          Z.lor 0x80 (Z.land (Z.shiftr c 12) 0x3F);
          Z.lor 0x80 (Z.land (Z.shiftr c 6) 0x3F);
          Z.lor 0x80 (Z.land c 0x3F)]
  else None.

Fixpoint encode_utf8 (s : pystr) : option (list Z) :=
  match s with
  | [] => Some []
  | c :: rest =>
      match encode_char c, encode_utf8 rest with
      | Some bs, Some more => Some (bs ++ more)
      | _, _ => None
      end
  end.

(** [bytes.hex()] *)
Definition hex_digits : pystr := str "0123456789abcdef".

Definition hex_digit (n : Z) : char := nth (Z.to_nat n) hex_digits (ord "0"%char).

Definition hex_byte (b : Z) : pystr :=
  [hex_digit (Z.land (Z.shiftr b 4) 15); hex_digit (Z.land b 15)].

Definition bytes_hex (bs : list Z) : pystr := flat_map hex_byte bs.

End Py.
Export Py.

(* ================================================================= *)
(** ** The [re] module, as far as the validators use it *)

Module Re.

(** A bracket expression [[...]] or [[^...]]: inclusive code point ranges
    (a single character is the range from itself to itself). *)
Record charset := Charset { negated : bool; ranges : list (char * char) }.

Definition in_ranges (rs : list (char * char)) (c : char) : bool :=
  existsb (fun r => (fst r <=? c) && (c <=? snd r)) rs.

Definition in_charset (cs : charset) (c : char) : bool :=
  xorb (negated cs) (in_ranges (ranges cs) c).

Inductive regex : Type :=
| Void : regex                      (* no string; only derivatives produce it *)
| Eps : regex
| Class : charset -> regex
| Lit : char -> regex
| Cat : regex -> regex -> regex
| Alt : regex -> regex -> regex
| Star : regex -> regex.

(** [r+] and [r{2,}] *)
Definition Plus (r : regex) : regex := Cat r (Star r).
Definition AtLeast2 (r : regex) : regex := Cat r (Plus r).

(** A pattern: a body, with or without a leading [^] and a trailing [$]. *)
Record pattern := Pattern { bol : bool; body : regex; eol : bool }.

Fixpoint nullable (r : regex) : bool :=
  match r with
  | Void => false
  | Eps => true
  | Class _ => false
  | Lit _ => false
  | Cat a b => nullable a && nullable b
  | Alt a b => nullable a || nullable b
  | Star _ => true
  end.

Fixpoint deriv (c : char) (r : regex) : regex :=
  match r with
  | Void => Void
  | Eps => Void
  | Class cs => if in_charset cs c then Eps else Void
  | Lit d => if char_eqb d c then Eps else Void
  | Cat a b =>
      if nullable a then Alt (Cat (deriv c a) b) (deriv c b)
      else Cat (deriv c a) b
  | Alt a b => Alt (deriv c a) (deriv c b)
  | Star a => Cat (deriv c a) (Star a)
  end.

(** Without [re.MULTILINE], [$] matches at the end of the string and just
    before a newline that ends the string. *)
Definition newline : char := 10.

Definition at_dollar (rest : pystr) : bool :=
  match rest with
  | [] => true
  | [c] => char_eqb c newline
  | _ => false
  end.

Definition at_end (p : pattern) (rest : pystr) : bool :=
  if eol p then at_dollar rest else true.

(** Is there a match of [r] that starts where [s] starts and stops at a place
    [stop] accepts?  The engine backtracks over every way to match, so a
    match object comes back exactly when some prefix does. *)
Fixpoint match_here (r : regex) (stop : pystr -> bool) (s : pystr) : bool :=
  (nullable r && stop s)
  || match s with
     | [] => false
     | c :: rest => match_here (deriv c r) stop rest
     end.

(** [re.match(p, s)] is not [None]. *)
Definition re_match (p : pattern) (s : pystr) : bool :=
  match_here (body p) (at_end p) s.

(** [re.search(p, s)] is not [None]: a match starting at some position; with
    a leading [^] only at the first one. *)
Fixpoint re_search (p : pattern) (s : pystr) : bool :=
  match_here (body p) (at_end p) s
  || match s with
     | [] => false
     | _ :: rest => if bol p then false else re_search p rest
     end.

(** The language of a regular expression. *)
Inductive matches : regex -> pystr -> Prop :=
| m_eps : matches Eps []
| m_class : forall cs c, in_charset cs c = true -> matches (Class cs) [c]
| m_lit : forall c, matches (Lit c) [c]
| m_cat : forall a b u v, matches a u -> matches b v -> matches (Cat a b) (u ++ v)
| m_alt_l : forall a b u, matches a u -> matches (Alt a b) u
| m_alt_r : forall a b u, matches b u -> matches (Alt a b) u
| m_star_nil : forall a, matches (Star a) []
| m_star_cons : forall a u v,
    matches a u -> matches (Star a) v -> matches (Star a) (u ++ v).

End Re.
Export Re.

(* ================================================================= *)
(** ** Validation functions *)

Definition rng (lo hi : string) : char * char :=
  (match lo with String a _ => ord a | EmptyString => 0 end,
   match hi with String a _ => ord a | EmptyString => 0 end).

Definition one (c : string) : char * char := rng c c.

(** [r'^[a-zA-Z0-9_]+$'] *)
Definition username_chars : charset :=
  Charset false [rng "a" "z"; rng "A" "Z"; rng "0" "9"; one "_"].

Definition username_pattern : pattern :=
  Pattern true (Plus (Class username_chars)) true.

(** [r'^[a-zA-Z0-9._%+-]+@[a-zA-Z0-9.-]+\.[a-zA-Z]{2,}$'] *)
Definition email_pattern : pattern :=
  Pattern true
    (Cat (Plus (Class (Charset false
            [rng "a" "z"; rng "A" "Z"; rng "0" "9";
             one "."; one "_"; one "%"; one "+"; one "-"])))
    (Cat (Lit (ord "@"%char))
    (Cat (Plus (Class (Charset false
            [rng "a" "z"; rng "A" "Z"; rng "0" "9"; one "."; one "-"])))
    (Cat (Lit (ord "."%char))
         (AtLeast2 (Class (Charset false [rng "a" "z"; rng "A" "Z"])))))))
    true.

(** [r'[A-Z]'], [r'[a-z]'], [r'[0-9]'], [r'[^A-Za-z0-9]'] *)
Definition upper_chars : charset := Charset false [rng "A" "Z"].
Definition lower_chars : charset := Charset false [rng "a" "z"].
Definition digit_chars : charset := Charset false [rng "0" "9"].
Definition special_chars : charset :=
  Charset true [rng "A" "Z"; rng "a" "z"; rng "0" "9"].

Definition unanchored (cs : charset) : pattern := Pattern false (Class cs) false.

(** The validators return the pair [(valid, message)]. *)
Definition validate_username (username : pystr) : bool * string :=
  if (len username <? 3) || (len username >? 20) then
    (false, "Username must be 3-20 characters"%string)
  else if negb (re_match username_pattern username) then
    (false, "Username can only contain letters, numbers, and underscores"%string)
  else (true, ""%string).

Definition validate_email (email : pystr) : bool * string :=
  if negb (re_match email_pattern email) then
    (false, "Invalid email format"%string)
  else (true, ""%string).

Definition validate_password (password : pystr) : bool * string :=
  if len password <? 8 then
    (false, "Password must be at least 8 characters"%string)
  else if negb (re_search (unanchored upper_chars) password) then
    (false, "Password must contain at least one uppercase letter"%string)
  else if negb (re_search (unanchored lower_chars) password) then
    (false, "Password must contain at least one lowercase letter"%string)
  else if negb (re_search (unanchored digit_chars) password) then
    (false, "Password must contain at least one number"%string)
  else if negb (re_search (unanchored special_chars) password) then
    (false, "Password must contain at least one special character"%string)
  else (true, ""%string).

(* ================================================================= *)
(** ** [hashlib.pbkdf2_hmac('sha256', password, salt, iterations)] *)

Module Hashlib.

(** 32-bit words are integers in [0, 2^32); sums wrap around. *)
Definition mask32 : Z := 0xFFFFFFFF.
Definition w32 (x : Z) : Z := Z.land x mask32.
Definition add32 (x y : Z) : Z := w32 (x + y).
Definition rotr (n x : Z) : Z :=
  Z.lor (Z.shiftr x n) (w32 (Z.shiftl x (32 - n))).
Definition not32 (x : Z) : Z := Z.lxor x mask32.

Definition choose (e f g : Z) : Z :=
  Z.lxor (Z.land e f) (Z.land (not32 e) g).
Definition majority (a b c : Z) : Z :=
  Z.lxor (Z.lxor (Z.land a b) (Z.land a c)) (Z.land b c).
Definition big_sigma0 (a : Z) : Z :=
  Z.lxor (Z.lxor (rotr 2 a) (rotr 13 a)) (rotr 22 a).
Definition big_sigma1 (e : Z) : Z :=
  Z.lxor (Z.lxor (rotr 6 e) (rotr 11 e)) (rotr 25 e).
Definition small_sigma0 (x : Z) : Z :=
  Z.lxor (Z.lxor (rotr 7 x) (rotr 18 x)) (Z.shiftr x 3).
Definition small_sigma1 (x : Z) : Z :=
  Z.lxor (Z.lxor (rotr 17 x) (rotr 19 x)) (Z.shiftr x 10).

Definition round_constants : list Z :=
  [ 0x428A2F98; 0x71374491; 0xB5C0FBCF; 0xE9B5DBA5;
    0x3956C25B; 0x59F111F1; 0x923F82A4; 0xAB1C5ED5;
    0xD807AA98; 0x12835B01; 0x243185BE; 0x550C7DC3;
    0x72BE5D74; 0x80DEB1FE; 0x9BDC06A7; 0xC19BF174;
    0xE49B69C1; 0xEFBE4786; 0x0FC19DC6; 0x240CA1CC;
    0x2DE92C6F; 0x4A7484AA; 0x5CB0A9DC; 0x76F988DA;
    0x983E5152; 0xA831C66D; 0xB00327C8; 0xBF597FC7;
    0xC6E00BF3; 0xD5A79147; 0x06CA6351; 0x14292967;
    0x27B70A85; 0x2E1B2138; 0x4D2C6DFC; 0x53380D13;
    0x650A7354; 0x766A0ABB; 0x81C2C92E; 0x92722C85;
    0xA2BFE8A1; 0xA81A664B; 0xC24B8B70; 0xC76C51A3;
    0xD192E819; 0xD6990624; 0xF40E3585; 0x106AA070;
    0x19A4C116; 0x1E376C08; 0x2748774C; 0x34B0BCB5;
    0x391C0CB3; 0x4ED8AA4A; 0x5B9CCA4F; 0x682E6FF3;
    0x748F82EE; 0x78A5636F; 0x84C87814; 0x8CC70208;
    0x90BEFFFA; 0xA4506CEB; 0xBEF9A3F7; 0xC67178F2 ].

(** The eight working variables, and the chaining value between blocks. *)
Record octet := Octet {
  va : Z; vb : Z; vc : Z; vd : Z; ve : Z; vf : Z; vg : Z; vh : Z }.

Definition initial_hash : octet :=
  Octet 0x6A09E667 0xBB67AE85 0x3C6EF372 0xA54FF53A
        0x510E527F 0x9B05688C 0x1F83D9AB 0x5BE0CD19.

Definition round (s : octet) (k w : Z) : octet :=
  let t1 := add32 (add32 (add32 (add32 (vh s) (big_sigma1 (ve s)))
                                (choose (ve s) (vf s) (vg s))) k) w in
  let t2 := add32 (big_sigma0 (va s)) (majority (va s) (vb s) (vc s)) in
  Octet (add32 t1 t2) (va s) (vb s) (vc s) (add32 (vd s) t1) (ve s) (vf s) (vg s).

(** The message schedule as a window of sixteen words: its head is the word
    of the current round, and the word sixteen rounds ahead joins its end. *)
Definition slide (win : list Z) : list Z :=
  match win with
  | [] => []
  | w0 :: rest =>
      rest ++ [add32 (add32 (add32 (small_sigma1 (nth 14 win 0)) (nth 9 win 0))
                            (small_sigma0 (nth 1 win 0))) w0]
  end.

Definition add_octet (x y : octet) : octet :=
  Octet (add32 (va x) (va y)) (add32 (vb x) (vb y))
        (add32 (vc x) (vc y)) (add32 (vd x) (vd y))
        (add32 (ve x) (ve y)) (add32 (vf x) (vf y))
        (add32 (vg x) (vg y)) (add32 (vh x) (vh y)).

Definition compress (h : octet) (block : list Z) : octet :=
  add_octet h
    (fst (fold_left (fun acc k => (round (fst acc) k (hd 0 (snd acc)), slide (snd acc)))
                    round_constants (h, block))).

(** Big-endian bytes of a word, and back. *)
Definition be_bytes (n : nat) (x : Z) : list Z :=
  map (fun i => Z.land (Z.shiftr x (8 * Z.of_nat i)) 0xFF) (rev (seq 0 n)).

Definition be_word (bs : list Z) : Z :=
  fold_left (fun acc b => Z.lor (Z.shiftl acc 8) b) bs 0.

Fixpoint words_of (n : nat) (bs : list Z) : list Z :=
  match n with
  | O => []
  | S n' => be_word (firstn 4 bs) :: words_of n' (skipn 4 bs)
  end.

(** Padding: a one bit, zeros up to 56 modulo 64, the bit length on 8 bytes. *)
Definition pad (msg : list Z) : list Z :=
  let n := Z.of_nat (List.length msg) in
  msg ++ [0x80] ++ repeat 0 (Z.to_nat ((55 - n) mod 64)) ++ be_bytes 8 (8 * n).

Fixpoint absorb (blocks : nat) (h : octet) (bs : list Z) : octet :=
  match blocks with
  | O => h
  | S more => absorb more (compress h (words_of 16 (firstn 64 bs))) (skipn 64 bs)
  end.

Definition digest_bytes (h : octet) : list Z :=
  be_bytes 4 (va h) ++ be_bytes 4 (vb h) ++ be_bytes 4 (vc h) ++ be_bytes 4 (vd h)
  ++ be_bytes 4 (ve h) ++ be_bytes 4 (vf h) ++ be_bytes 4 (vg h) ++ be_bytes 4 (vh h).

Definition sha256 (msg : list Z) : list Z :=
  let padded := pad msg in
  digest_bytes (absorb (List.length padded / 64) initial_hash padded).

(** HMAC (RFC 2104) with SHA-256: block size 64. *)
Definition xor_bytes (xs ys : list Z) : list Z :=
  map (fun p => Z.lxor (fst p) (snd p)) (combine xs ys).

Definition hmac_key (key : list Z) : list Z :=
  let k := if (64 <? Z.of_nat (List.length key)) then sha256 key else key in
  k ++ repeat 0 (64 - List.length k).

Definition hmac_sha256 (key msg : list Z) : list Z :=
  let k := hmac_key key in
  sha256 (map (Z.lxor 0x5C) k ++ sha256 (map (Z.lxor 0x36) k ++ msg)).

(** PBKDF2 (RFC 8018) for one block of output, which is what the default
    [dklen] (the digest size) asks for: the xor of the chain
    [U1 = PRF(P, S || INT(1))], [Uj = PRF(P, U(j-1))] over [iterations]
    links. *)
Definition pbkdf2_step (password : list Z) (ut : list Z * list Z) : list Z * list Z :=
  let u := hmac_sha256 password (fst ut) in (u, xor_bytes (snd ut) u).

Definition pbkdf2_hmac_sha256 (password salt : list Z) (iterations : N) : list Z :=
  let u1 := hmac_sha256 password (salt ++ be_bytes 4 1) in
  snd (N.iter (iterations - 1) (pbkdf2_step password) (u1, u1)).

End Hashlib.
Export Hashlib.

(* ================================================================= *)
(** ** The database [users.db] *)

(** A timestamp is a number of seconds since the epoch, in UTC as SQLite
    keeps [CURRENT_TIMESTAMP]. *)
Definition timestamp := Z.

Module User.
(** A row of the table [users]. *)
Record t := mk {
  id : Z;
  username : pystr;
  email : pystr;
  password_hash : pystr;
  password_salt : pystr;
  mood : option pystr;
  agreed_to_terms : bool;
  created_at : timestamp;
  last_login : option timestamp }.
End User.

Module LoginAttempt.
(** A row of the table [login_attempts]. *)
Record t := mk {
  id : Z;
  email : pystr;
  attempt_time : timestamp;
  success : bool;
  ip_address : option pystr }.
End LoginAttempt.

(** The two tables, rows in rowid order, and the counter that
    [AUTOINCREMENT] keeps for [users] (the largest rowid ever given). *)
Record db := Db {
  users : list User.t;
  login_attempts : list LoginAttempt.t;
  users_seq : Z }.

(** [init_db] on a fresh file: both tables exist and are empty. *)
Definition init_db : db := Db [] [] 0.

(** What a handler call reads from outside: the clock and the operating
    system's random bytes. *)
Record env := Env {
  current_timestamp : timestamp;
  urandom : nat -> list Z }.

Module Sql.

(** [SELECT ... FROM users WHERE cond] *)
Definition select_where (cond : User.t -> bool) (d : db) : list User.t :=
  filter cond (users d).

(** [cursor.fetchone()] *)
Definition fetchone (rows : list User.t) : option User.t := hd_error rows.

Definition max_rowid (rows : list User.t) : Z :=
  fold_right (fun u m => Z.max (User.id u) m) 0 rows.

(** [INSERT INTO users (username, email, password_hash, password_salt, mood,
    agreed_to_terms) VALUES (...)] followed by [commit]: the new database and
    [lastrowid].  [id] is one more than the largest rowid the table ever had,
    [created_at] defaults to the clock, [last_login] to NULL.  [None] is the
    [IntegrityError] of a [UNIQUE] column. *)
Definition insert_user (now : timestamp)
    (username email password_hash password_salt : pystr)
    (mood : option pystr) (agreed_to_terms : bool) (d : db) : option (db * Z) :=
  if existsb (fun u => str_eqb (User.username u) username
                       || str_eqb (User.email u) email) (users d)
  then None
  else
    let rowid := Z.max (users_seq d) (max_rowid (users d)) + 1 in
    Some (Db (users d ++ [User.mk rowid username email password_hash
                            password_salt mood agreed_to_terms now None])
             (login_attempts d) rowid,
          rowid).

(** [UPDATE users SET last_login = CURRENT_TIMESTAMP WHERE id = ?] *)
Definition update_last_login (now : timestamp) (uid : Z) (d : db) : db :=
  Db (map (fun u =>
             if User.id u =? uid then
               User.mk (User.id u) (User.username u) (User.email u)
                 (User.password_hash u) (User.password_salt u) (User.mood u)
                 (User.agreed_to_terms u) (User.created_at u) (Some now)
             else u)
          (users d))
     (login_attempts d) (users_seq d).

(** [date(t)]: the calendar day of a timestamp, as a day number.  SQLite
    compares the texts [YYYY-MM-DD], which order as the day numbers do. *)
Definition date (t : timestamp) : Z := t / 86400.

(** [date('now', '-7 days')] *)
Definition date_now_minus_days (now : timestamp) (days : Z) : Z :=
  date (now - days * 86400).

(** Insertion of a row into rows kept in the order [before]. *)
Fixpoint insert_sorted {A : Type} (before : A -> A -> bool) (x : A) (rows : list A) : list A :=
  match rows with
  | [] => [x]
  | y :: rest => if before y x then y :: insert_sorted before x rest
                 else x :: rows
  end.

(** [ORDER BY], by insertion.  SQL leaves the order among rows that compare
    equal open; no statement below depends on the one this gives. *)
Definition order_by {A : Type} (before : A -> A -> bool) (rows : list A) : list A :=
  fold_right (insert_sorted before) [] rows.

(** [SELECT mood, COUNT( * ) FROM users WHERE mood IS NOT NULL GROUP BY mood] *)
Definition moods (d : db) : list pystr :=
  flat_map (fun u => match User.mood u with Some m => [m] | None => [] end) (users d).

Definition group_count (keys : list pystr) : list (pystr * Z) :=
  map (fun k => (k, Z.of_nat (count_occ pystr_eq_dec keys k)))
      (nodup pystr_eq_dec keys).

End Sql.
Import Sql.

(** A Python [dict] with [str] keys, in insertion order. *)
Definition dict := list (pystr * Z).

Fixpoint dict_set (k : pystr) (v : Z) (d : dict) : dict :=
  match d with
  | [] => [(k, v)]
  | (k', v') :: rest =>
      if str_eqb k' k then (k', v) :: rest else (k', v') :: dict_set k v rest
  end.

(** [{k: v for k, v in pairs}] *)
Definition dict_of (pairs : list (pystr * Z)) : dict :=
  fold_left (fun d kv => dict_set (fst kv) (snd kv) d) pairs [].

(* ================================================================= *)
(** ** Password hashing *)

(** [secrets.token_hex(nbytes)] *)
Definition token_hex (e : env) (nbytes : nat) : pystr :=
  bytes_hex (urandom e nbytes).

(** [hash_password(password, salt=None)]; [None] when [encode] raises. *)
Definition hash_password (e : env) (password : pystr) (salt : option pystr)
    : option (pystr * pystr) :=
  let salt := match salt with None => token_hex e 16 | Some s => s end in
  match encode_utf8 password with
  | None => None
  | Some password_bytes =>
      match encode_utf8 salt with
      | None => None
      | Some salt_bytes =>
          Some (bytes_hex (pbkdf2_hmac_sha256 password_bytes salt_bytes 100000),
                salt)
      end
  end.

(* ================================================================= *)
(** ** Request handlers *)

(** The JSON body of a response. *)
Inductive payload : Type :=
| Error (msg : string)            (* [{'error': msg}] *)
| Raised                          (* [{'error': str(e)}] of an [except] clause *)
| Registered (id : Z) (username email : pystr) (mood : option pystr)
             (created_at : timestamp)
| LoggedIn (id : Z) (username email : pystr)
| UserList (rows : list (Z * pystr * pystr * option pystr * timestamp)) (count : Z)
| Statistics (total_users recent_signups : Z) (mood_distribution : dict).

(** A body and its HTTP status. *)
Definition response : Type := payload * Z.

(** [POST /api/signup] with the fields of the JSON body, all present and of
    their types ([mood] may be [null]).  An exception anywhere in the body is
    caught by the [except] clause, which answers 500. *)
Definition signup (e : env) (username email password : pystr)
    (mood : option pystr) (agreed_to_terms : bool) (d : db) : response * db :=
  let (username_valid, username_msg) := validate_username username in
  if negb username_valid then ((Error username_msg, 400), d) else
  let (email_valid, email_msg) := validate_email email in
  if negb email_valid then ((Error email_msg, 400), d) else
  let (password_valid, password_msg) := validate_password password in
  if negb password_valid then ((Error password_msg, 400), d) else
  if negb agreed_to_terms then
    ((Error "You must agree to the terms and conditions", 400), d) else
  match fetchone (select_where (fun u => str_eqb (User.username u) username) d) with
  | Some _ => ((Error "Username already exists", 409), d)
  | None =>
  match fetchone (select_where (fun u => str_eqb (User.email u) email) d) with
  | Some _ => ((Error "Email already registered", 409), d)
  | None =>
  match hash_password e password None with
  | None => ((Raised, 500), d)
  | Some (password_hash, salt) =>
  match insert_user (current_timestamp e) username email password_hash salt
                    mood true d with
  | None => ((Raised, 500), d)
  | Some (d', user_id) =>
  match fetchone (select_where (fun u => User.id u =? user_id) d') with
  | None => ((Raised, 500), d')
  | Some user =>
      ((Registered (User.id user) (User.username user) (User.email user)
                   (User.mood user) (User.created_at user), 201), d')
  end end end end end.

(** [GET /api/users] *)
Definition get_users (d : db) : response * db :=
  let rows := order_by (fun a b => User.created_at b <=? User.created_at a)
                       (users d) in
  let users_list :=
    map (fun u => (User.id u, User.username u, User.email u, User.mood u,
                   User.created_at u)) rows in
  ((UserList users_list (Z.of_nat (List.length users_list)), 200), d).

(** [POST /api/verify] *)
Definition verify_login (e : env) (email password : pystr) (d : db)
    : response * db :=
  match fetchone (select_where (fun u => str_eqb (User.email u) email) d) with
  | None => ((Error "User not found", 404), d)
  | Some user =>
      let stored_hash := User.password_hash user in
      let salt := User.password_salt user in
      match hash_password e password (Some salt) with
      | None => ((Raised, 500), d)
      | Some (input_hash, _) =>
          if negb (str_eqb input_hash stored_hash) then
            ((Error "Invalid password", 401), d)
          else
            ((LoggedIn (User.id user) (User.username user) (User.email user), 200),
             update_last_login (current_timestamp e) (User.id user) d)
      end
  end.

(** [GET /api/stats] *)
Definition get_stats (e : env) (d : db) : response * db :=
  let total_users := Z.of_nat (List.length (users d)) in
  let mood_stats :=
    order_by (fun a b => snd b <=? snd a) (group_count (moods d)) in
  let recent_signups :=
    Z.of_nat (List.length (select_where
      (fun u => date_now_minus_days (current_timestamp e) 7 <=? date (User.created_at u))
      d)) in
  ((Statistics total_users recent_signups (dict_of mood_stats), 200), d).

(** The requests the server answers, each with what it reads from outside. *)
Inductive request : Type :=
| Signup (e : env) (username email password : pystr) (mood : option pystr)
         (agreed_to_terms : bool)
| GetUsers
| VerifyLogin (e : env) (email password : pystr)
| GetStats (e : env).

Definition handle (r : request) (d : db) : response * db :=
  match r with
  | Signup e username email password mood agreed =>
      signup e username email password mood agreed d
  | GetUsers => get_users d
  | VerifyLogin e email password => verify_login e email password d
  | GetStats e => get_stats e d
  end.

(** The database after a sequence of requests. *)
Definition run (rs : list request) (d : db) : db :=
  fold_left (fun acc r => snd (handle r acc)) rs d.

(** The databases the server can be in: those that requests lead to from a
    fresh [init_db]. *)
Inductive reachable : db -> Prop :=
| reach_init : reachable init_db
| reach_step : forall d r, reachable d -> reachable (snd (handle r d)).

(** The spec's names for the outcomes. *)
Definition UserNotFound : response := (Error "User not found", 404).
Definition InvalidCredentials : response := (Error "Invalid password", 401).
Definition TermsNotAccepted : response :=
  (Error "You must agree to the terms and conditions", 400).
Definition DuplicateUsername : response := (Error "Username already exists", 409).
Definition DuplicateEmail : response := (Error "Email already registered", 409).
Definition ValidationError (msg : string) : response := (Error msg, 400).

(* ================================================================= *)
(** ** Vocabulary of the statements *)

(** The character classes the validators speak of, on code points. *)
Definition is_upper (c : char) : Prop := ord "A" <= c <= ord "Z".
Definition is_lower (c : char) : Prop := ord "a" <= c <= ord "z".
Definition is_digit (c : char) : Prop := ord "0" <= c <= ord "9".
Definition is_alnum (c : char) : Prop := is_upper c \/ is_lower c \/ is_digit c.
Definition is_special (c : char) : Prop := ~ is_alnum c.
Definition is_word (c : char) : Prop := is_alnum c \/ c = ord "_".

(** The messages of [validate_password]. *)
Definition password_too_short : string := "Password must be at least 8 characters".
Definition password_no_upper : string :=
  "Password must contain at least one uppercase letter".
Definition password_no_lower : string :=
  "Password must contain at least one lowercase letter".
Definition password_no_digit : string := "Password must contain at least one number".
Definition password_no_special : string :=
  "Password must contain at least one special character".

(** A string of hex digits. *)
Definition is_hex (s : pystr) : Prop := Forall (fun c => In c hex_digits) s.


(** A salt as [secrets.token_hex(16 + n)] gives it when the random bytes are
    all zero: [32 + 2n] digits [0]. *)
Definition zero_salt (n : nat) : pystr := bytes_hex (repeat 0 (16 + n)).

(** An environment for examples: the clock at [t], random bytes all zero. *)
Definition env_at (t : timestamp) : env := Env t (fun n => repeat 0 n).

(** The columns of a user other than [last_login]. *)
Definition frozen (u : User.t)
    : Z * pystr * pystr * pystr * pystr * option pystr * bool * timestamp :=
  (User.id u, User.username u, User.email u, User.password_hash u,
   User.password_salt u, User.mood u, User.agreed_to_terms u, User.created_at u).

(** The row that a successful signup adds. *)
Definition new_user (e : env) (username email password_hash salt : pystr)
    (mood : option pystr) (d : db) : User.t :=
  User.mk (Z.max (users_seq d) (max_rowid (users d)) + 1) username email
    password_hash salt mood true (current_timestamp e) None.

Definition by_username (username : pystr) (u : User.t) : bool :=
  str_eqb (User.username u) username.
Definition by_email (email : pystr) (u : User.t) : bool :=
  str_eqb (User.email u) email.

(** What [verify_login] compares and returns of a user. *)
Definition credentials (u : User.t) : Z * pystr * pystr * pystr * pystr :=
  (User.id u, User.username u, User.email u, User.password_hash u,
   User.password_salt u).

(** The three validators accept the fields. *)
Definition valid_fields (username email password : pystr) : Prop :=
  fst (validate_username username) = true
  /\ fst (validate_email email) = true
  /\ fst (validate_password password) = true.

(** Usernames, emails and ids stay pairwise different. *)
Definition distinct_users (d : db) : Prop :=
  NoDup (map User.username (users d))
  /\ NoDup (map User.email (users d))
  /\ NoDup (map User.id (users d)).

(** The scenario of the spec: one registration on a fresh database. *)
Definition alice_db : db :=
  snd (signup (env_at 1000) (str "alice_1") (str "a@b.com") (str "Abcdef1!")
              (Some (str "happy")) true init_db).

(** Counting users, for the statistics. *)
Definition count_where (cond : User.t -> bool) (d : db) : Z :=
  Z.of_nat (List.length (filter cond (users d))).

Definition has_mood (m : pystr) (u : User.t) : bool :=
  match User.mood u with Some m' => str_eqb m' m | None => false end.




(** The order of [ORDER BY count DESC]. *)
Definition by_count_desc (a b : pystr * Z) : bool := snd b <=? snd a.

(* ================================================================= *)
(** ** The JSON bodies of the two POST requests *)

(** [request.json] of [/api/signup]: an object whose fields, where present,
    have their types; [None] is a key that is absent, and a [mood] that is
    present may be [null]. *)
Record signup_body := SignupBody {
  body_username : option pystr;
  body_email : option pystr;
  body_password : option pystr;
  body_mood : option (option pystr);
  body_agreed_to_terms : option bool }.

Definition is_some {A : Type} (o : option A) : bool :=
  match o with Some _ => true | None => false end.

(** [field in data] *)
Definition has_field (data : signup_body) (field : string) : bool :=
  if String.eqb field "username" then is_some (body_username data)
  else if String.eqb field "email" then is_some (body_email data)
  else if String.eqb field "password" then is_some (body_password data)
  else if String.eqb field "mood" then is_some (body_mood data)
  else if String.eqb field "agreed_to_terms" then is_some (body_agreed_to_terms data)
  else false.

Definition required_fields : list string :=
  ["username"; "email"; "password"; "mood"]%string.

(** The handler of [/api/signup] from the body on: the loop over
    [required_fields], then the code that [signup] embeds, with
    [data.get('agreed_to_terms')] read as false when the key is absent. *)
Definition signup_request (e : env) (data : signup_body) (d : db) : response * db :=
  match find (fun field => negb (has_field data field)) required_fields with
  | Some field => ((Error ("Missing field: " ++ field), 400), d)
  | None =>
      match body_username data, body_email data, body_password data,
            body_mood data with
      | Some username, Some email, Some password, Some mood =>
          signup e username email password mood
            (match body_agreed_to_terms data with Some b => b | None => false end)
            d
      | _, _, _, _ => ((Raised, 500), d)          (* [KeyError] *)
      end
  end.

(** [request.json] of [/api/verify]. *)
Record verify_body := VerifyBody {
  body_login_email : option pystr;
  body_login_password : option pystr }.

Definition verify_request (e : env) (data : verify_body) (d : db) : response * db :=
  match body_login_email data, body_login_password data with
  | Some email, Some password => verify_login e email password d
  | _, _ => ((Error "Missing email or password", 400), d)
  end.

(* ================================================================= *)
(** ** Vocabulary of the further statements *)

(** The classes of the email pattern. *)
Definition is_letter (c : char) : Prop := is_upper c \/ is_lower c.
Definition is_email_local (c : char) : Prop :=
  is_alnum c \/ c = ord "." \/ c = ord "_" \/ c = ord "%" \/ c = ord "+"
  \/ c = ord "-".
Definition is_email_domain (c : char) : Prop :=
  is_alnum c \/ c = ord "." \/ c = ord "-".

(** The strings of the shape [local@domain.tld]. *)
Definition email_shape (s : pystr) : Prop :=
  exists local domain tld,
    s = local ++ ord "@" :: domain ++ ord "." :: tld
    /\ local <> [] /\ Forall is_email_local local
    /\ domain <> [] /\ Forall is_email_domain domain
    /\ (2 <= List.length tld)%nat /\ Forall is_letter tld.


(** A code point that [encode('utf-8')] rejects: a surrogate, or an integer
    that is no code point. *)
Definition unencodable (c : char) : Prop :=
  c < 0 \/ 0xD800 <= c <= 0xDFFF \/ 0x110000 <= c.

(** What [get_users] shows of a user. *)
Definition public_fields (u : User.t) : Z * pystr * pystr * option pystr * timestamp :=
  (User.id u, User.username u, User.email u, User.mood u, User.created_at u).

Definition newest_first
    (a b : Z * pystr * pystr * option pystr * timestamp) : Prop :=
  snd b <= snd a.

Definition status (r : response * db) : Z := snd (fst r).

(** The answers to a sequence of requests, in order. *)
Fixpoint answers (rs : list request) (d : db) : list response :=
  match rs with
  | [] => []
  | r :: rest => fst (handle r d) :: answers rest (snd (handle r d))
  end.

Definition is_created (r : response) : bool := snd r =? 201.

(** Ids are 1, 2, 3, ... in the order of registration. *)
Definition consecutive_ids (d : db) : Prop :=
  map User.id (users d) = map Z.of_nat (seq 1 (List.length (users d)))
  /\ users_seq d = Z.of_nat (List.length (users d)).

(** What holds of every row the server stores. *)
Definition well_formed_user (u : User.t) : Prop :=
  fst (validate_username (User.username u)) = true
  /\ fst (validate_email (User.email u)) = true
  /\ User.agreed_to_terms u = true
  /\ is_hex (User.password_salt u)
  /\ List.length (User.password_hash u) = 64%nat
  /\ is_hex (User.password_hash u)
  /\ exists password,
       fst (validate_password password) = true
       /\ forall e, hash_password e password (Some (User.password_salt u))
                    = Some (User.password_hash u, User.password_salt u).

(* ================================================================= *)
(** * Properties *)

(* ================================================================= *)
(** ** Strings *)

Lemma str_eqb_eq (s t : pystr) : str_eqb s t = true <-> s = t.
Proof.
  revert t; induction s as [|a s IH]; intros [|b t]; simpl; try easy.
  unfold char_eqb. rewrite andb_true_iff, Z.eqb_eq, IH.
  split; [intros [-> ->]; reflexivity | intros H; inversion H; auto].
Qed.

Lemma str_eqb_refl (s : pystr) : str_eqb s s = true.
Proof. apply str_eqb_eq; reflexivity. Qed.

Lemma str_eqb_neq (s t : pystr) : str_eqb s t = false <-> s <> t.
Proof.
  rewrite <- str_eqb_eq. destruct (str_eqb s t); split; congruence.
Qed.

Lemma len_length (s : pystr) (n : nat) : len s = Z.of_nat n <-> List.length s = n.
Proof. unfold len; lia. Qed.

(* ================================================================= *)
(** ** The matcher against the language of a regular expression *)

Section Matcher.

Lemma matches_nil_cat a b :
  matches (Cat a b) [] -> matches a [] /\ matches b [].
Proof.
  intros H. inversion H; subst.
  match goal with E : _ ++ _ = [] |- _ =>
    destruct (app_eq_nil _ _ E) as [-> ->] end.
  auto.
Qed.

Lemma nullable_matches r : nullable r = true <-> matches r [].
Proof.
  induction r as [| |cs|c|a IHa b IHb|a IHa b IHb|a IHa]; simpl.
  - split; [discriminate | intros H; inversion H].
  - split; [constructor | reflexivity].
  - split; [discriminate | intros H; inversion H].
  - split; [discriminate | intros H; inversion H].
  - rewrite andb_true_iff, IHa, IHb. split.
    + intros [Ha Hb]. change (@nil char) with (@nil char ++ []).
      now constructor.
    + apply matches_nil_cat.
  - rewrite orb_true_iff, IHa, IHb. split.
    + intros [H|H]; [now apply m_alt_l | now apply m_alt_r].
    + intros H; inversion H; auto.
  - split; [constructor | reflexivity].
Qed.

(** A non-empty word of [Star a] starts with a non-empty word of [a]. *)
Lemma matches_star_cons a c s :
  matches (Star a) (c :: s) ->
  exists u v, s = u ++ v /\ matches a (c :: u) /\ matches (Star a) v.
Proof.
  intros H. remember (Star a) as r eqn:Er. remember (c :: s) as w eqn:Ew.
  revert Er Ew.
  induction H as [| | | | | | a'|a' u v Hu _ Hv IHv]; try discriminate.
  intros Er Ew; injection Er as ->.
  destruct u as [|c' u'].
  - simpl in Ew. apply IHv; auto.
  - simpl in Ew. injection Ew as -> <-. exists u', v. auto.
Qed.

Lemma deriv_sound c r : forall s, matches (deriv c r) s -> matches r (c :: s).
Proof.
  induction r as [| |cs|d|a IHa b IHb|a IHa b IHb|a IHa]; simpl; intros s H.
  - inversion H.
  - inversion H.
  - destruct (in_charset cs c) eqn:E; inversion H; subst. now constructor.
  - destruct (char_eqb d c) eqn:E; inversion H; subst.
    apply Z.eqb_eq in E; subst. constructor.
  - assert (Hcat : forall t, matches (Cat (deriv c a) b) t -> matches (Cat a b) (c :: t)).
    { intros t Ht. inversion Ht; subst.
      change (c :: u ++ v) with ((c :: u) ++ v). constructor; auto. }
    destruct (nullable a) eqn:Na; [|auto].
    inversion H; subst; [auto|].
    change (c :: s) with ([] ++ c :: s). constructor; auto.
    now apply nullable_matches.
  - inversion H; subst; [apply m_alt_l | apply m_alt_r]; auto.
  - inversion H; subst.
    change (c :: u ++ v) with ((c :: u) ++ v). constructor; auto.
Qed.

Lemma deriv_complete c r : forall s, matches r (c :: s) -> matches (deriv c r) s.
Proof.
  induction r as [| |cs|d|a IHa b IHb|a IHa b IHb|a IHa]; simpl; intros s H.
  - inversion H.
  - inversion H.
  - inversion H; subst. replace (in_charset cs c) with true by auto. constructor.
  - inversion H; subst. unfold char_eqb; rewrite Z.eqb_refl. constructor.
  - inversion H as [| | |a' b' u v Hu Hv [Ea Eb] E| | | |]; subst.
    destruct u as [|c' u'].
    + simpl in E; subst v.
      apply nullable_matches in Hu. rewrite Hu. apply m_alt_r; auto.
    + simpl in E. injection E as -> <-.
      assert (matches (Cat (deriv c a) b) (u' ++ v)) by (constructor; auto).
      destruct (nullable a); [apply m_alt_l|]; auto.
  - inversion H; subst; [apply m_alt_l | apply m_alt_r]; auto.
  - destruct (matches_star_cons H) as (u & v & -> & Hu & Hv).
    constructor; auto.
Qed.

Lemma match_here_spec stop : forall s r,
  match_here r stop s = true <->
  exists u v, s = u ++ v /\ matches r u /\ stop v = true.
Proof.
  induction s as [|c s IH]; intros r; simpl.
  - rewrite orb_false_r, andb_true_iff, nullable_matches. split.
    + intros [Hr Hs]. exists [], []. auto.
    + intros (u & v & E & Hr & Hs). symmetry in E.
      destruct (app_eq_nil _ _ E) as [-> ->]. auto.
  - rewrite orb_true_iff, andb_true_iff, nullable_matches, IH. split.
    + intros [[Hr Hs]|(u & v & -> & Hr & Hs)].
      * exists [], (c :: s). auto.
      * exists (c :: u), v. split; [reflexivity|]. split; [|assumption].
        now apply deriv_sound.
    + intros (u & v & E & Hr & Hs). destruct u as [|c' u'].
      * simpl in E; subst v. left; auto.
      * simpl in E. injection E as <- ->. right. exists u', v.
        split; [reflexivity|]. split; [|assumption]. now apply deriv_complete.
Qed.

(** [[...]+] matches the non-empty strings over the class. *)
Lemma matches_star_class cs u :
  matches (Star (Class cs)) u <-> Forall (fun c => in_charset cs c = true) u.
Proof.
  split.
  - intros H. remember (Star (Class cs)) as r eqn:Er. revert Er.
    induction H as [| | | | | | a|a u v Hu _ Hv IHv]; try discriminate.
    + constructor.
    + intros Er; injection Er as ->. inversion Hu; subst. simpl.
      constructor; auto.
  - induction 1 as [|c u Hc _ IH]; [constructor|].
    change (c :: u) with ([c] ++ u). constructor; [now constructor | assumption].
Qed.

Lemma matches_plus_class cs u :
  matches (Plus (Class cs)) u <->
  u <> [] /\ Forall (fun c => in_charset cs c = true) u.
Proof.
  unfold Plus. split.
  - intros H. inversion H as [| | |a b x y Hx Hy [Ea Eb] E| | | |]; subst.
    inversion Hx; subst. simpl. split; [discriminate|].
    constructor; [assumption | now apply matches_star_class].
  - intros [Hne Hall]. destruct Hall as [|c u Hc Hu]; [congruence|].
    change (c :: u) with ([c] ++ u).
    constructor; [now constructor | now apply matches_star_class].
Qed.

(** [re.search] for one character of a class finds it wherever it is. *)
Lemma re_search_class cs s :
  re_search (unanchored cs) s = true <->
  Exists (fun c => in_charset cs c = true) s.
Proof.
  induction s as [|c s IH].
  - simpl. split; [discriminate | intros H; inversion H].
  - cbn [re_search bol unanchored match_here body at_end eol nullable andb orb deriv].
    split.
    + intros H. apply orb_true_iff in H. destruct H as [H|H].
      * apply Exists_cons_hd.
        change (match_here (deriv c (Class cs)) (fun _ => true) s = true) in H.
        apply match_here_spec in H. destruct H as (u & v & _ & Hm & _).
        simpl in Hm. destruct (in_charset cs c); [reflexivity | inversion Hm].
      * apply Exists_cons_tl, IH, H.
    + intros H. apply orb_true_iff. inversion H as [? ? Hc|? ? Hs]; subst.
      * left.
        change (match_here (deriv c (Class cs)) (fun _ => true) s = true).
        apply match_here_spec. exists [], s. simpl. rewrite Hc.
        repeat split. constructor.
      * right. apply IH, Hs.
Qed.

(** What [$] accepts. *)
Lemma at_dollar_spec v : at_dollar v = true <-> v = [] \/ v = [newline].
Proof.
  destruct v as [|c [|d v]]; simpl.
  - split; auto.
  - unfold char_eqb. rewrite Z.eqb_eq. split.
    + intros ->; auto.
    + intros [H|H]; [discriminate | now injection H].
  - split; [discriminate | intros [H|H]; discriminate].
Qed.

End Matcher.

(* ================================================================= *)
(** ** Validators *)

Lemma Exists_iff {A : Type} (P Q : A -> Prop) (l : list A) :
  (forall x, P x <-> Q x) -> (Exists P l <-> Exists Q l).
Proof.
  intros H. rewrite !Exists_exists.
  split; intros (x & Hin & Hx); exists x; split; auto; now apply H.
Qed.

Lemma Forall_iff {A : Type} (P Q : A -> Prop) (l : list A) :
  (forall x, P x <-> Q x) -> (Forall P l <-> Forall Q l).
Proof.
  intros H. rewrite !Forall_forall.
  split; intros HP x Hin; apply H; auto.
Qed.

Ltac eval_ord :=
  repeat match goal with
         | |- context [ord ?a] =>
             let v := eval vm_compute in (ord a) in change (ord a) with v
         end.

Ltac class_cases :=
  unfold in_charset, in_ranges, is_word, is_special, is_alnum,
         is_upper, is_lower, is_digit, char in *; simpl; eval_ord;
  repeat match goal with
         | |- context [Z.leb ?a ?b] => destruct (Z.leb_spec a b)
         end;
  simpl; intuition (discriminate || lia).

Lemma upper_chars_spec c : in_charset upper_chars c = true <-> is_upper c.
Proof. class_cases. Qed.

Lemma lower_chars_spec c : in_charset lower_chars c = true <-> is_lower c.
Proof. class_cases. Qed.

Lemma digit_chars_spec c : in_charset digit_chars c = true <-> is_digit c.
Proof. class_cases. Qed.

Lemma special_chars_spec c : in_charset special_chars c = true <-> is_special c.
Proof. class_cases. Qed.

Lemma username_chars_spec c : in_charset username_chars c = true <-> is_word c.
Proof. class_cases. Qed.

Lemma search_class_iff cs (P : char -> Prop) s :
  (forall c, in_charset cs c = true <-> P c) ->
  (re_search (unanchored cs) s = true <-> Exists P s).
Proof.
  intros H. rewrite re_search_class. now apply Exists_iff.
Qed.

Lemma bool_prop_cases (b : bool) (P : Prop) :
  (b = true <-> P) -> (b = true /\ P) \/ (b = false /\ ~ P).
Proof.
  intros H. destruct b; [left | right]; split; auto.
  - now apply H.
  - intros HP. apply H in HP. discriminate.
Qed.

(** [re.match] with the username pattern: a non-empty run of word
    characters, then the end of the string or one final newline. *)
Lemma re_match_username s :
  re_match username_pattern s = true <->
  exists u, u <> [] /\ Forall is_word u /\ (s = u \/ s = u ++ [newline]).
Proof.
  unfold re_match, username_pattern; cbn [body at_end eol].
  rewrite match_here_spec. split.
  - intros (u & v & -> & Hu & Hv).
    apply matches_plus_class in Hu. destruct Hu as [Hne Hall].
    exists u. split; [assumption|]. split.
    + exact (proj1 (@Forall_iff _ _ _ u username_chars_spec) Hall).
    + apply at_dollar_spec in Hv. destruct Hv as [-> | ->];
        [left; now rewrite app_nil_r | right; reflexivity].
  - intros (u & Hne & Hall & Hs).
    assert (Hm : matches (Plus (Class username_chars)) u).
    { apply matches_plus_class. split; [assumption|].
      exact (proj2 (@Forall_iff _ _ _ u username_chars_spec) Hall). }
    destruct Hs as [-> | ->].
    + exists u, []. rewrite app_nil_r. auto.
    + exists u, [newline]. auto.
Qed.

(** [validate_username] accepts exactly the strings of 3 to 20 characters
    that are word characters throughout, or word characters followed by one
    newline. *)
Lemma validate_username_accepts s :
  validate_username s = (true, ""%string) <->
  3 <= len s <= 20 /\
  exists u, u <> [] /\ Forall is_word u /\ (s = u \/ s = u ++ [newline]).
Proof.
  rewrite <- re_match_username. unfold validate_username.
  destruct (Z.ltb_spec (len s) 3); destruct (Z.gtb_spec (len s) 20); simpl;
    try (split; [discriminate | lia]).
  destruct (re_match username_pattern s); simpl;
    [ split; auto
    | split; [discriminate | intros [_ ?]; discriminate] ].
Qed.

(** C6 (as the code has it): the pattern ends in [$], which also matches
    before a final newline, so ["abc\n"] is accepted as a username although
    its last character is none of letter, digit, underscore. *)
Theorem validate_username_trailing_newline :
  validate_username (str "abc" ++ [newline]) = (true, ""%string)
  /\ 3 <= len (str "abc" ++ [newline]) <= 20
  /\ ~ Forall is_word (str "abc" ++ [newline]).
Proof.
  split; [reflexivity|]. split; [vm_compute; split; discriminate|].
  intros H. rewrite Forall_forall in H.
  specialize (H newline). unfold is_word, is_alnum, is_upper, is_lower, is_digit in H.
  assert (Hin : In newline (str "abc" ++ [newline])) by (simpl; auto).
  apply H in Hin. vm_compute in Hin.
  destruct Hin as [[[A B]|[[A B]|[A B]]]|E];
    try (now apply A); try (now apply B); discriminate.
Qed.

(** Strings of 3 to 20 word characters are accepted, and every other string
    without a final newline is rejected. *)
Lemma validate_username_no_newline s :
  last s 0 <> newline ->
  (validate_username s = (true, ""%string) <->
   3 <= len s <= 20 /\ Forall is_word s).
Proof.
  intros Hlast. rewrite validate_username_accepts. split.
  - intros [Hlen (u & Hne & Hall & [-> | ->])]; [auto|].
    rewrite last_last in Hlast. congruence.
  - intros [Hlen Hall]. split; [assumption|]. exists s. repeat split; auto.
    intros ->. unfold len in Hlen; simpl in Hlen; lia.
Qed.

(** The checks of [validate_password], in their order. *)
Lemma validate_password_cases s :
  (len s < 8 /\ validate_password s = (false, password_too_short))
  \/ (8 <= len s /\
      ((~ Exists is_upper s /\ validate_password s = (false, password_no_upper))
       \/ (Exists is_upper s /\
           ((~ Exists is_lower s
             /\ validate_password s = (false, password_no_lower))
            \/ (Exists is_lower s /\
                ((~ Exists is_digit s
                  /\ validate_password s = (false, password_no_digit))
                 \/ (Exists is_digit s /\
                     ((~ Exists is_special s
                       /\ validate_password s = (false, password_no_special))
                      \/ (Exists is_special s
                          /\ validate_password s = (true, ""%string)))))))))).
Proof.
  unfold validate_password.
  destruct (Z.ltb_spec (len s) 8) as [Hlen|Hlen]; [left; auto|].
  right. split; [assumption|].
  destruct (bool_prop_cases (@search_class_iff _ _ s upper_chars_spec))
    as [[-> HU]|[-> HU]]; [right; split; [assumption|] | left; auto].
  destruct (bool_prop_cases (@search_class_iff _ _ s lower_chars_spec))
    as [[-> HL]|[-> HL]]; [right; split; [assumption|] | left; auto].
  destruct (bool_prop_cases (@search_class_iff _ _ s digit_chars_spec))
    as [[-> HD]|[-> HD]]; [right; split; [assumption|] | left; auto].
  destruct (bool_prop_cases (@search_class_iff _ _ s special_chars_spec))
    as [[-> HS]|[-> HS]]; [right | left]; auto.
Qed.

(** C5: [validate_password] succeeds exactly on strings of length at least 8
    with an uppercase letter, a lowercase letter, a digit and a character
    that is none of these; the message of a failure is that of the first
    failing check in the order length, uppercase, lowercase, digit, special;
    and the three examples of the spec. *)
Theorem validate_password_spec (s : pystr) :
  (validate_password s = (true, ""%string) <->
     8 <= len s /\ Exists is_upper s /\ Exists is_lower s
     /\ Exists is_digit s /\ Exists is_special s)
  /\ (fst (validate_password s) = false <->
     ~ (8 <= len s /\ Exists is_upper s /\ Exists is_lower s
        /\ Exists is_digit s /\ Exists is_special s))
  /\ (len s < 8 -> validate_password s = (false, password_too_short))
  /\ (8 <= len s -> ~ Exists is_upper s ->
        validate_password s = (false, password_no_upper))
  /\ (8 <= len s -> Exists is_upper s -> ~ Exists is_lower s ->
        validate_password s = (false, password_no_lower))
  /\ (8 <= len s -> Exists is_upper s -> Exists is_lower s ->
      ~ Exists is_digit s ->
        validate_password s = (false, password_no_digit))
  /\ (8 <= len s -> Exists is_upper s -> Exists is_lower s ->
      Exists is_digit s -> ~ Exists is_special s ->
        validate_password s = (false, password_no_special))
  /\ validate_password (str "short1A") = (false, password_too_short)
  /\ fst (validate_password (str "longenough")) = false
  /\ validate_password (str "LongEnough1!") = (true, ""%string).
Proof.
  destruct (validate_password_cases s)
    as [[Hlen ->]|[Hlen [[HU ->]|[HU [[HL ->]|[HL [[HD ->]|[HD [[HS ->]|[HS ->]]]]]]]]]];
  cbn [fst];
  repeat split; intros;
    try reflexivity; try discriminate; try lia; try tauto.
Qed.

(* ================================================================= *)
(** ** Password hashing *)

Section Hashing.

Lemma hex_digit_in n : In (hex_digit n) hex_digits.
Proof.
  unfold hex_digit.
  destruct (Nat.lt_ge_cases (Z.to_nat n) (List.length hex_digits)) as [H|H].
  - now apply nth_In.
  - rewrite nth_overflow by assumption. vm_compute. auto.
Qed.

Lemma bytes_hex_is_hex bs : is_hex (bytes_hex bs).
Proof.
  unfold is_hex, bytes_hex. induction bs as [|b bs IH]; simpl.
  - constructor.
  - constructor; [apply hex_digit_in|].
    constructor; [apply hex_digit_in | exact IH].
Qed.

Lemma bytes_hex_length bs : List.length (bytes_hex bs) = (2 * List.length bs)%nat.
Proof.
  unfold bytes_hex. induction bs as [|b bs IH]; simpl; [reflexivity | lia].
Qed.

Lemma bytes_hex_app xs ys : bytes_hex (xs ++ ys) = bytes_hex xs ++ bytes_hex ys.
Proof. unfold bytes_hex. apply flat_map_app. Qed.

(** Hex digits are ASCII, so a hex string always encodes. *)
Lemma encode_hex_digit c : In c hex_digits -> encode_char c = Some [c].
Proof.
  intros H. vm_compute in H.
  repeat (destruct H as [<-|H]; [reflexivity|]). contradiction.
Qed.

Lemma encode_is_hex s : is_hex s -> encode_utf8 s = Some s.
Proof.
  induction 1 as [|c s Hc _ IH]; simpl; [reflexivity|].
  rewrite (encode_hex_digit Hc), IH. reflexivity.
Qed.

Lemma digest_bytes_length h : List.length (digest_bytes h) = 32%nat.
Proof. reflexivity. Qed.

Lemma sha256_length msg : List.length (sha256 msg) = 32%nat.
Proof. unfold sha256. apply digest_bytes_length. Qed.

Lemma hmac_sha256_length key msg : List.length (hmac_sha256 key msg) = 32%nat.
Proof. unfold hmac_sha256. apply sha256_length. Qed.

Lemma xor_bytes_length xs ys :
  List.length (xor_bytes xs ys) = Nat.min (List.length xs) (List.length ys).
Proof. unfold xor_bytes. now rewrite length_map, length_combine. Qed.

Lemma pbkdf2_hmac_sha256_length password salt iterations :
  List.length (pbkdf2_hmac_sha256 password salt iterations) = 32%nat.
Proof.
  unfold pbkdf2_hmac_sha256.
  set (u1 := hmac_sha256 password (salt ++ be_bytes 4 1)).
  apply (N.iter_invariant (iterations - 1) _ (pbkdf2_step password)
           (fun ut => List.length (snd ut) = 32%nat)).
  - intros [u t] Ht. unfold pbkdf2_step; simpl in *.
    rewrite xor_bytes_length, Ht, hmac_sha256_length. reflexivity.
  - apply hmac_sha256_length.
Qed.

(** From here on the key derivation is used through its lemmas only. *)
Opaque pbkdf2_hmac_sha256.

(** What a successful call returns. *)
Lemma hash_password_some e password salt0 h s :
  hash_password e password salt0 = Some (h, s) ->
  exists pw sl,
    encode_utf8 password = Some pw /\ encode_utf8 s = Some sl
    /\ s = match salt0 with None => token_hex e 16 | Some s0 => s0 end
    /\ h = bytes_hex (pbkdf2_hmac_sha256 pw sl 100000).
Proof.
  unfold hash_password.
  destruct (encode_utf8 password) as [pw|]; [|discriminate].
  destruct (encode_utf8 _) as [sl|] eqn:Es; [|discriminate].
  remember (pbkdf2_hmac_sha256 pw sl 100000) as dk eqn:Edk.
  intros H; injection H as <- <-. exists pw, sl. rewrite <- Edk.
  repeat split; assumption || reflexivity.
Qed.

(** The hash is 64 hex digits and the salt comes back as given. *)
Lemma hash_password_shape e password salt h s :
  hash_password e password (Some salt) = Some (h, s) ->
  s = salt /\ List.length h = 64%nat /\ is_hex h.
Proof.
  intros H. apply hash_password_some in H.
  destruct H as (pw & sl & _ & _ & -> & ->). split; [reflexivity|]. split.
  - rewrite bytes_hex_length, pbkdf2_hmac_sha256_length. reflexivity.
  - apply bytes_hex_is_hex.
Qed.

(** With a salt given, the random source is not read. *)
Lemma hash_password_env e1 e2 password salt :
  hash_password e1 password (Some salt) = hash_password e2 password (Some salt).
Proof. reflexivity. Qed.

(** With no salt given, the salt is 32 hex digits from the random source and
    the call fails only on a password that does not encode. *)
Lemma hash_password_fresh e password :
  hash_password e password None =
  match encode_utf8 password with
  | None => None
  | Some pw =>
      Some (bytes_hex (pbkdf2_hmac_sha256 pw (token_hex e 16) 100000),
            token_hex e 16)
  end.
Proof.
  unfold hash_password, token_hex.
  rewrite (encode_is_hex (bytes_hex_is_hex (urandom e 16))). reflexivity.
Qed.

(** Hashing again with the salt that came back gives the same hash. *)
Lemma hash_password_again e e' password salt0 h s :
  hash_password e password salt0 = Some (h, s) ->
  hash_password e' password (Some s) = Some (h, s).
Proof.
  intros H. apply hash_password_some in H.
  destruct H as (pw & sl & Ep & Es & _ & ->).
  unfold hash_password. rewrite Ep, Es. reflexivity.
Qed.

End Hashing.

(* ================================================================= *)
(** ** Counting hashes *)

Section Counting.






Lemma zero_salt_token n :
  zero_salt n = token_hex (env_at 0) (16 + n).
Proof. reflexivity. Qed.


End Counting.

(* ================================================================= *)
(** ** Queries *)

Section Queries.

Lemma fetchone_select cond d :
  fetchone (select_where cond d) = find cond (users d).
Proof.
  unfold fetchone, select_where. induction (users d) as [|u l IH]; simpl.
  - reflexivity.
  - destruct (cond u); [reflexivity | exact IH].
Qed.

Lemma find_none_iff {A : Type} (f : A -> bool) (l : list A) :
  find f l = None <-> forall x, In x l -> f x = false.
Proof.
  split; [apply find_none|].
  induction l as [|a l IH]; simpl; intros H; [reflexivity|].
  rewrite (H a) by auto. apply IH. auto.
Qed.

Lemma find_app {A : Type} (f : A -> bool) (l1 l2 : list A) :
  find f (l1 ++ l2) = match find f l1 with Some x => Some x | None => find f l2 end.
Proof.
  induction l1 as [|a l1 IH]; simpl; [reflexivity|].
  destruct (f a); [reflexivity | exact IH].
Qed.

Lemma find_map {A : Type} (f : A -> bool) (g : A -> A) (l : list A) :
  (forall x, f (g x) = f x) ->
  find f (map g l) = option_map g (find f l).
Proof.
  intros H. induction l as [|a l IH]; simpl; [reflexivity|].
  rewrite H. destruct (f a); [reflexivity | exact IH].
Qed.

Lemma find_by_email_none email l :
  find (by_email email) l = None <-> ~ In email (map User.email l).
Proof.
  rewrite find_none_iff, in_map_iff. unfold by_email. split.
  - intros H (u & <- & Hin). apply H in Hin. rewrite str_eqb_refl in Hin. discriminate.
  - intros H u Hin. apply str_eqb_neq. intros E. apply H. now exists u.
Qed.

Lemma find_by_username_none username l :
  find (by_username username) l = None <-> ~ In username (map User.username l).
Proof.
  rewrite find_none_iff, in_map_iff. unfold by_username. split.
  - intros H (u & <- & Hin). apply H in Hin. rewrite str_eqb_refl in Hin. discriminate.
  - intros H u Hin. apply str_eqb_neq. intros E. apply H. now exists u.
Qed.

Lemma max_rowid_bound l u : In u l -> User.id u <= max_rowid l.
Proof.
  induction l as [|a l IH]; simpl; [contradiction|].
  intros [->|H]; [lia | specialize (IH H); lia].
Qed.

Lemma find_fresh_rowid l rowid :
  max_rowid l < rowid -> find (fun u => User.id u =? rowid) l = None.
Proof.
  intros H. apply find_none_iff. intros u Hin.
  apply max_rowid_bound in Hin. apply Z.eqb_neq. lia.
Qed.

(** After the two lookups found nothing, the insert meets no [UNIQUE]
    conflict. *)
Lemma insert_user_ok now username email h salt mood agreed d :
  find (by_username username) (users d) = None ->
  find (by_email email) (users d) = None ->
  insert_user now username email h salt mood agreed d =
  let rowid := Z.max (users_seq d) (max_rowid (users d)) + 1 in
  Some (Db (users d ++ [User.mk rowid username email h salt mood agreed now None])
           (login_attempts d) rowid, rowid).
Proof.
  intros Hu He. unfold insert_user.
  replace (existsb _ (users d)) with false; [reflexivity|].
  symmetry. apply not_true_is_false. intros H.
  apply existsb_exists in H. destruct H as (u & Hin & H).
  pose proof (find_none _ _ Hu u Hin) as A.
  pose proof (find_none _ _ He u Hin) as B.
  unfold by_username, by_email in A, B. rewrite A, B in H. discriminate.
Qed.

Lemma update_last_login_frozen now uid d :
  map frozen (users (update_last_login now uid d)) = map frozen (users d).
Proof.
  unfold update_last_login; simpl. rewrite map_map. apply map_ext.
  intros u. destruct (User.id u =? uid); reflexivity.
Qed.

End Queries.

(* ================================================================= *)
(** ** [signup] *)

Section Signup.

Variables (e : env) (username email password : pystr) (mood : option pystr).

(** The handler, with the lookups as [find] and the insert carried out. *)
Lemma signup_unfold agreed d :
  signup e username email password mood agreed d =
  if negb (fst (validate_username username)) then
    (ValidationError (snd (validate_username username)), d)
  else if negb (fst (validate_email email)) then
    (ValidationError (snd (validate_email email)), d)
  else if negb (fst (validate_password password)) then
    (ValidationError (snd (validate_password password)), d)
  else if negb agreed then (TermsNotAccepted, d)
  else match find (by_username username) (users d) with
  | Some _ => (DuplicateUsername, d)
  | None =>
  match find (by_email email) (users d) with
  | Some _ => (DuplicateEmail, d)
  | None =>
  match hash_password e password None with
  | None => ((Raised, 500), d)
  | Some (h, salt) =>
      let row := new_user e username email h salt mood d in
      ((Registered (User.id row) username email mood (current_timestamp e), 201),
       Db (users d ++ [row]) (login_attempts d) (User.id row))
  end end end.
Proof.
  unfold signup, ValidationError, TermsNotAccepted, DuplicateUsername, DuplicateEmail.
  destruct (validate_username username) as [[|] umsg]; simpl; [|reflexivity].
  destruct (validate_email email) as [[|] emsg]; simpl; [|reflexivity].
  destruct (validate_password password) as [[|] pmsg]; simpl; [|reflexivity].
  destruct agreed; simpl; [|reflexivity].
  rewrite !fetchone_select.
  change (fun u => str_eqb (User.username u) username) with (by_username username).
  change (fun u => str_eqb (User.email u) email) with (by_email email).
  destruct (find (by_username username) (users d)) eqn:Fu; [reflexivity|].
  destruct (find (by_email email) (users d)) eqn:Fe; [reflexivity|].
  destruct (hash_password e password None) as [[h salt]|]; [|reflexivity].
  rewrite insert_user_ok by assumption. cbv beta iota zeta.
  rewrite fetchone_select. cbn [users].
  rewrite find_app, find_fresh_rowid by lia.
  cbn [find User.id]. rewrite Z.eqb_refl. reflexivity.
Qed.

End Signup.

(* ================================================================= *)
(** ** [verify_login] *)

Section Verify.

Lemma verify_login_unfold e email password d :
  verify_login e email password d =
  match find (by_email email) (users d) with
  | None => (UserNotFound, d)
  | Some user =>
      match hash_password e password (Some (User.password_salt user)) with
      | None => ((Raised, 500), d)
      | Some (h, _) =>
          if str_eqb h (User.password_hash user) then
            ((LoggedIn (User.id user) (User.username user) (User.email user), 200),
             update_last_login (current_timestamp e) (User.id user) d)
          else (InvalidCredentials, d)
      end
  end.
Proof.
  unfold verify_login. rewrite fetchone_select.
  change (fun u => str_eqb (User.email u) email) with (by_email email).
  destruct (find (by_email email) (users d)) as [user|]; [|reflexivity].
  cbv zeta.
  destruct (hash_password e password (Some (User.password_salt user)))
    as [[h s]|]; [|reflexivity].
  destruct (str_eqb h (User.password_hash user)); reflexivity.
Qed.

(** A failed verification writes nothing. *)
Lemma verify_login_failed e email password d :
  (forall i u m, fst (verify_login e email password d) <> (LoggedIn i u m, 200)) ->
  snd (verify_login e email password d) = d.
Proof.
  rewrite verify_login_unfold.
  destruct (find (by_email email) (users d)) as [user|]; [|reflexivity].
  destruct (hash_password _ _ _) as [[h s]|]; [|reflexivity].
  destruct (str_eqb h (User.password_hash user)); [|reflexivity].
  intros H. exfalso. eapply H. reflexivity.
Qed.

(** The only write of [verify_login] is the update of [last_login]. *)
Lemma verify_login_db e email password d :
  snd (verify_login e email password d) = d
  \/ exists uid,
       snd (verify_login e email password d)
       = update_last_login (current_timestamp e) uid d.
Proof.
  rewrite verify_login_unfold.
  destruct (find (by_email email) (users d)) as [user|]; [|left; reflexivity].
  destruct (hash_password _ _ _) as [[h s]|]; [|left; reflexivity].
  destruct (str_eqb h (User.password_hash user)); [|left; reflexivity].
  right. exists (User.id user). reflexivity.
Qed.


End Verify.

(* ================================================================= *)
(** ** What a request does to the database *)

Section Steps.

(** A request leaves the database as it is, sets one [last_login], or adds
    one user whose username and email were not there before. *)
Lemma handle_db r d :
  snd (handle r d) = d
  \/ (exists now uid, snd (handle r d) = update_last_login now uid d)
  \/ (exists row,
        snd (handle r d) = Db (users d ++ [row]) (login_attempts d) (User.id row)
        /\ find (by_username (User.username row)) (users d) = None
        /\ find (by_email (User.email row)) (users d) = None
        /\ max_rowid (users d) < User.id row).
Proof.
  destruct r as [e username email password mood agreed| |e email password|e];
    cbn [handle].
  - rewrite signup_unfold.
    destruct (negb (fst (validate_username username))); [left; reflexivity|].
    destruct (negb (fst (validate_email email))); [left; reflexivity|].
    destruct (negb (fst (validate_password password))); [left; reflexivity|].
    destruct (negb agreed); [left; reflexivity|].
    destruct (find (by_username username) (users d)) eqn:Fu; [left; reflexivity|].
    destruct (find (by_email email) (users d)) eqn:Fe; [left; reflexivity|].
    destruct (hash_password e password None) as [[h salt]|]; [|left; reflexivity].
    right; right. exists (new_user e username email h salt mood d).
    cbn [snd new_user User.id User.username User.email].
    repeat split; auto. lia.
  - left; reflexivity.
  - destruct (verify_login_db e email password d) as [H|[uid H]];
      [left; exact H | right; left; eauto].
  - left; reflexivity.
Qed.

Lemma NoDup_snoc {A : Type} (l : list A) (x : A) :
  NoDup l -> ~ In x l -> NoDup (l ++ [x]).
Proof.
  induction 1 as [|a l Ha Hl IH]; simpl; intros Hx.
  - constructor; [easy | constructor].
  - constructor.
    + rewrite in_app_iff. simpl. intuition congruence.
    + apply IH. intuition.
Qed.

Lemma map_frozen_fields l l' :
  map frozen l = map frozen l' ->
  map User.username l = map User.username l'
  /\ map User.email l = map User.email l'
  /\ map User.id l = map User.id l'.
Proof.
  revert l'. induction l as [|u l IH]; intros [|u' l']; simpl; try discriminate.
  - auto.
  - intros H. injection H as Hid Hun Hem _ _ _ _ _ Hl.
    destruct (IH _ Hl) as (A & B & C).
    rewrite Hid, Hun, Hem, A, B, C. auto.
Qed.

Lemma handle_distinct r d : distinct_users d -> distinct_users (snd (handle r d)).
Proof.
  intros (Hu & He & Hi).
  destruct (handle_db r d) as [->|[(now & uid & ->)|(row & -> & Fu & Fe & Hid)]].
  - repeat split; assumption.
  - destruct (map_frozen_fields _ _ (update_last_login_frozen now uid d))
      as (A & B & C).
    unfold distinct_users. rewrite A, B, C. auto.
  - unfold distinct_users; cbn [users]. rewrite !map_app; simpl.
    repeat split; apply NoDup_snoc; auto.
    + now apply find_by_username_none.
    + now apply find_by_email_none.
    + intros Hin. apply in_map_iff in Hin. destruct Hin as (u & E & Hin).
      apply max_rowid_bound in Hin. lia.
Qed.

Lemma reachable_distinct d : reachable d -> distinct_users d.
Proof.
  induction 1 as [|d r _ IH].
  - repeat split; constructor.
  - now apply handle_distinct.
Qed.

Lemma reachable_run rs : forall d, reachable d -> reachable (run rs d).
Proof.
  induction rs as [|r rs IH]; intros d Hd; simpl; [assumption|].
  apply IH. now constructor.
Qed.

(** The rows that were there stay, in place, with their frozen columns. *)
Lemma handle_frozen r d :
  map frozen (firstn (List.length (users d)) (users (snd (handle r d))))
  = map frozen (users d).
Proof.
  destruct (handle_db r d) as [->|[(now & uid & ->)|(row & -> & _)]].
  - now rewrite firstn_all.
  - replace (List.length (users d))
      with (List.length (users (update_last_login now uid d)))
      by (unfold update_last_login; cbn [users]; apply length_map).
    rewrite firstn_all. apply update_last_login_frozen.
  - cbn [users]. rewrite firstn_app, firstn_all, Nat.sub_diag. simpl.
    now rewrite app_nil_r.
Qed.

Lemma handle_length r d :
  (List.length (users d) <= List.length (users (snd (handle r d))))%nat.
Proof.
  destruct (handle_db r d) as [->|[(now & uid & ->)|(row & -> & _)]].
  - lia.
  - unfold update_last_login; cbn [users]. rewrite length_map. lia.
  - cbn [users]. rewrite length_app. simpl. lia.
Qed.

Lemma firstn_firstn_le {A : Type} (l : list A) (m n : nat) :
  (m <= n)%nat -> firstn m (firstn n l) = firstn m l.
Proof. intros H. rewrite firstn_firstn. now rewrite Nat.min_l. Qed.

Lemma run_frozen rs : forall d,
  (List.length (users d) <= List.length (users (run rs d)))%nat
  /\ map frozen (firstn (List.length (users d)) (users (run rs d)))
     = map frozen (users d).
Proof.
  induction rs as [|r rs IH]; intros d; simpl.
  - split; [lia|]. now rewrite firstn_all.
  - destruct (IH (snd (handle r d))) as [Hlen Hfr].
    pose proof (handle_length r d) as Hstep. split; [lia|].
    rewrite <- firstn_map in Hfr |- *.
    rewrite <- (firstn_firstn_le (map frozen (users (run rs (snd (handle r d))))) Hstep).
    rewrite Hfr, firstn_map. apply handle_frozen.
Qed.

(** No request writes to [login_attempts]. *)
Lemma handle_login_attempts r d :
  login_attempts (snd (handle r d)) = login_attempts d.
Proof.
  destruct (handle_db r d) as [->|[(now & uid & ->)|(row & -> & _)]];
    reflexivity.
Qed.

Lemma verify_login_attempts e email password d :
  login_attempts (snd (verify_login e email password d)) = login_attempts d.
Proof. exact (handle_login_attempts (VerifyLogin e email password) d). Qed.

Lemma signup_login_attempts e username email password mood agreed d :
  login_attempts (snd (signup e username email password mood agreed d))
  = login_attempts d.
Proof.
  exact (handle_login_attempts (Signup e username email password mood agreed) d).
Qed.

Lemma reachable_signup e username email password mood agreed d :
  reachable d -> reachable (snd (signup e username email password mood agreed d)).
Proof.
  intros H. exact (reach_step (Signup e username email password mood agreed) H).
Qed.

Lemma run_login_attempts rs : forall d,
  login_attempts (run rs d) = login_attempts d.
Proof.
  induction rs as [|r rs IH]; intros d; simpl; [reflexivity|].
  now rewrite IH, handle_login_attempts.
Qed.

End Steps.

(* ================================================================= *)
(** ** Registration, then verification *)

Section Credentials.

Lemma by_email_refl u : by_email (User.email u) u = true.
Proof. apply str_eqb_refl. Qed.

(** The user found under an email keeps its credentials whatever the
    server is asked later. *)
Lemma handle_find_credentials r d email c :
  option_map credentials (find (by_email email) (users d)) = Some c ->
  option_map credentials (find (by_email email) (users (snd (handle r d)))) = Some c.
Proof.
  intros H.
  destruct (handle_db r d) as [->|[(now & uid & ->)|(row & -> & _)]].
  - exact H.
  - unfold update_last_login; cbn [users].
    rewrite find_map by (intros u; destruct (User.id u =? uid); reflexivity).
    destruct (find (by_email email) (users d)) as [u|]; [|discriminate].
    simpl in *. destruct (User.id u =? uid); exact H.
  - cbn [users]. rewrite find_app.
    destruct (find (by_email email) (users d)); [exact H | discriminate].
Qed.

Lemma run_find_credentials rs : forall d email c,
  option_map credentials (find (by_email email) (users d)) = Some c ->
  option_map credentials (find (by_email email) (users (run rs d))) = Some c.
Proof.
  induction rs as [|r rs IH]; intros d email c H; simpl; [exact H|].
  apply IH, handle_find_credentials, H.
Qed.

(** Verification succeeds when the hash with the stored salt is the stored
    hash. *)
Lemma verify_login_ok e email password d i username em h salt :
  option_map credentials (find (by_email email) (users d))
    = Some (i, username, em, h, salt) ->
  hash_password e password (Some salt) = Some (h, salt) ->
  verify_login e email password d
  = ((LoggedIn i username em, 200), update_last_login (current_timestamp e) i d).
Proof.
  intros Hf Hh. rewrite verify_login_unfold.
  destruct (find (by_email email) (users d)) as [u|]; [|discriminate].
  simpl in Hf. unfold credentials in Hf. injection Hf as <- <- <- <- <-.
  rewrite Hh, str_eqb_refl. reflexivity.
Qed.

(** What a signup that answers 201 has done. *)
Lemma signup_registered e username email password mood agreed d i u' em' m' c :
  fst (signup e username email password mood agreed d)
    = (Registered i u' em' m' c, 201) ->
  exists h salt,
    hash_password e password None = Some (h, salt)
    /\ valid_fields username email password /\ agreed = true
    /\ find (by_username username) (users d) = None
    /\ find (by_email email) (users d) = None
    /\ i = User.id (new_user e username email h salt mood d)
    /\ u' = username /\ em' = email /\ m' = mood /\ c = current_timestamp e
    /\ snd (signup e username email password mood agreed d)
       = Db (users d ++ [new_user e username email h salt mood d])
            (login_attempts d) i.
Proof.
  rewrite signup_unfold. unfold valid_fields, ValidationError, TermsNotAccepted,
    DuplicateUsername, DuplicateEmail.
  destruct (fst (validate_username username)); simpl; [|discriminate].
  destruct (fst (validate_email email)); simpl; [|discriminate].
  destruct (fst (validate_password password)); simpl; [|discriminate].
  destruct agreed; simpl; [|discriminate].
  destruct (find (by_username username) (users d)); [discriminate|].
  destruct (find (by_email email) (users d)); [discriminate|].
  destruct (hash_password e password None) as [[h salt]|]; [|discriminate].
  cbn [fst snd]. intros H. injection H as <- <- <- <- <-.
  exists h, salt. repeat split; reflexivity.
Qed.

(** The converse: valid fields, terms agreed, no duplicate and a password
    that encodes give the answer 201. *)
Lemma signup_registers e username email password mood d pw :
  valid_fields username email password ->
  find (by_username username) (users d) = None ->
  find (by_email email) (users d) = None ->
  encode_utf8 password = Some pw ->
  exists h,
    hash_password e password None = Some (h, token_hex e 16)
    /\ signup e username email password mood true d
       = ((Registered (User.id (new_user e username email h (token_hex e 16) mood d))
                      username email mood (current_timestamp e), 201),
          Db (users d ++ [new_user e username email h (token_hex e 16) mood d])
             (login_attempts d)
             (User.id (new_user e username email h (token_hex e 16) mood d))).
Proof.
  intros (Vu & Ve & Vp) Fu Fe Ep.
  pose proof (hash_password_fresh e password) as Hh. rewrite Ep in Hh.
  eexists. split; [exact Hh|].
  rewrite signup_unfold, Vu, Ve, Vp, Fu, Fe, Hh. reflexivity.
Qed.

(** After a signup that answered 201, verification with the same email and
    password succeeds on every later database. *)
Lemma registered_then_verified e username email password mood agreed d
    i u' em' m' c e' rs :
  fst (signup e username email password mood agreed d)
    = (Registered i u' em' m' c, 201) ->
  fst (verify_login e' email password
         (run rs (snd (signup e username email password mood agreed d))))
  = (LoggedIn i u' em', 200).
Proof.
  intros H. apply signup_registered in H.
  destruct H as (h & salt & Hh & _ & _ & _ & Fe & Hi & -> & -> & _ & _ & Hd).
  rewrite Hd.
  erewrite verify_login_ok; [reflexivity | | eapply hash_password_again, Hh].
  apply run_find_credentials. cbn [users]. rewrite find_app, Fe. simpl.
  unfold by_email at 1. cbn [User.email new_user]. rewrite str_eqb_refl.
  simpl. unfold credentials. cbn [User.id User.username User.email
    User.password_hash User.password_salt new_user]. rewrite Hi. reflexivity.
Qed.

Lemma registered_then_verified_now e username email password mood agreed d
    i u' em' m' c e' :
  fst (signup e username email password mood agreed d)
    = (Registered i u' em' m' c, 201) ->
  fst (verify_login e' email password
         (snd (signup e username email password mood agreed d)))
  = (LoggedIn i u' em', 200).
Proof.
  intros H. exact (@registered_then_verified _ _ _ _ _ _ _ _ _ _ _ _ e' [] H).
Qed.

End Credentials.

(* ================================================================= *)
(** ** [get_stats] *)

Section Stats.


Lemma insert_sorted_perm {A : Type} (before : A -> A -> bool) x l :
  Permutation (insert_sorted before x l) (x :: l).
Proof.
  induction l as [|y l IH]; simpl; [reflexivity|].
  destruct (before y x); [|reflexivity].
  rewrite IH. apply perm_swap.
Qed.

Lemma order_by_perm {A : Type} (before : A -> A -> bool) l :
  Permutation (order_by before l) l.
Proof.
  unfold order_by. induction l as [|x l IH]; simpl; [reflexivity|].
  rewrite insert_sorted_perm. now constructor.
Qed.



(** Setting a key that is not there appends it. *)
Lemma dict_set_fresh k v d :
  ~ In k (map fst d) -> dict_set k v d = d ++ [(k, v)].
Proof.
  induction d as [|[k' v'] d IH]; simpl; intros H; [reflexivity|].
  destruct (str_eqb k' k) eqn:E.
  - apply str_eqb_eq in E. tauto.
  - rewrite IH by tauto. reflexivity.
Qed.

Lemma dict_of_distinct pairs :
  NoDup (map fst pairs) -> dict_of pairs = pairs.
Proof.
  unfold dict_of. intros H.
  enough (G : forall acc, NoDup (map fst (acc ++ pairs)) ->
            fold_left (fun d kv => dict_set (fst kv) (snd kv) d) pairs acc
            = acc ++ pairs) by (apply (G []); assumption).
  clear H. induction pairs as [|[k v] pairs IH]; intros acc H; simpl.
  - now rewrite app_nil_r.
  - rewrite dict_set_fresh.
    + rewrite IH; rewrite <- app_assoc; [reflexivity | exact H].
    + rewrite map_app in H. simpl in H. apply NoDup_remove_2 in H.
      rewrite in_app_iff in H. tauto.
Qed.


(** Each key once, with the number of its occurrences. *)
Lemma group_count_in keys k c :
  In (k, c) (group_count keys) <->
  c = Z.of_nat (count_occ pystr_eq_dec keys k) /\ 0 < c.
Proof.
  unfold group_count. rewrite in_map_iff. split.
  - intros (k' & E & Hin). injection E as -> <-. split; [reflexivity|].
    apply nodup_In in Hin. apply (count_occ_In pystr_eq_dec) in Hin. lia.
  - intros [-> Hpos]. exists k. split; [reflexivity|].
    apply nodup_In. apply (count_occ_In pystr_eq_dec). lia.
Qed.

Lemma group_count_keys keys : map fst (group_count keys) = nodup pystr_eq_dec keys.
Proof. unfold group_count. rewrite map_map. simpl. apply map_id. Qed.




Lemma moods_count d m :
  Z.of_nat (count_occ pystr_eq_dec (moods d) m) = count_where (has_mood m) d.
Proof.
  unfold moods, count_where, has_mood. f_equal.
  induction (users d) as [|u l IH]; simpl; [reflexivity|].
  destruct (User.mood u) as [m'|]; simpl; [|exact IH].
  destruct (pystr_eq_dec m' m) as [->|Hne].
  - rewrite str_eqb_refl. simpl. now rewrite IH.
  - apply str_eqb_neq in Hne. rewrite Hne. exact IH.
Qed.



End Stats.

(* ================================================================= *)
(** ** Test vectors and the scenario of the spec *)

Section Examples.

Let ascii_bytes (s : string) : list Z := str s.

(** FIPS 180-4, the one-block message [abc]. *)
Example sha256_abc :
  bytes_hex (sha256 (ascii_bytes "abc"))
  = str "ba7816bf8f01cfea414140de5dae2223b00361a396177a9cb410ff61f20015ad".
Proof. vm_compute. reflexivity. Qed.

(** A message of 119 bytes, which pads to two blocks. *)
Example sha256_two_blocks :
  bytes_hex (sha256 (repeat (ord "a") 119))
  = str "31eba51c313a5c08226adf18d4a359cfdfd8d2e816b13f4af952f7ea6584dcfb".
Proof. vm_compute. reflexivity. Qed.

Example hmac_sha256_fox :
  bytes_hex (hmac_sha256 (ascii_bytes "key")
               (ascii_bytes "The quick brown fox jumps over the lazy dog"))
  = str "f7bc83f430538424b13298e6aa6fb143ef4d59a14946175997479dbc2d1a3cd8".
Proof. vm_compute. reflexivity. Qed.

(** A key longer than the block is hashed first. *)
Example hmac_sha256_long_key :
  bytes_hex (hmac_sha256 (repeat (ord "k") 100) (ascii_bytes "msg"))
  = str "bd56a1782c2830e8abc6ed866a57a1230661e650b84c62f7ee3accc5fa5af491".
Proof. vm_compute. reflexivity. Qed.

(** [hashlib.pbkdf2_hmac('sha256', b'password', b'salt', 1)] and with 2
    iterations. *)
Example pbkdf2_one_iteration :
  bytes_hex (pbkdf2_hmac_sha256 (ascii_bytes "password") (ascii_bytes "salt") 1)
  = str "120fb6cffcf8b32c43e7225256c4f837a86548c92ccc35480805987cb70be17b".
Proof. vm_compute. reflexivity. Qed.

Example pbkdf2_two_iterations :
  bytes_hex (pbkdf2_hmac_sha256 (ascii_bytes "password") (ascii_bytes "salt") 2)
  = str "ae4d0c95af6b46d32d0adff928f06dd02a303f8ef3c251dfd6e2d85a95474c43".
Proof. vm_compute. reflexivity. Qed.

Example encode_utf8_euro :
  encode_utf8 [0x20AC] = Some [0xE2; 0x82; 0xAC].
Proof. reflexivity. Qed.

Example encode_utf8_lone_surrogate : encode_utf8 [0xD800] = None.
Proof. reflexivity. Qed.

Example token_hex_zero : token_hex (env_at 0) 16 = str "00000000000000000000000000000000".
Proof. reflexivity. Qed.

Example validate_username_alice :
  validate_username (str "alice_1") = (true, ""%string).
Proof. reflexivity. Qed.

Example validate_username_short :
  validate_username (str "al") = (false, "Username must be 3-20 characters"%string).
Proof. reflexivity. Qed.

Example validate_username_dash :
  validate_username (str "al-ice")
  = (false, "Username can only contain letters, numbers, and underscores"%string).
Proof. reflexivity. Qed.

Example validate_email_ab :
  validate_email (str "a@b.com") = (true, ""%string).
Proof. reflexivity. Qed.

Example validate_email_short_tld :
  validate_email (str "a@b.c") = (false, "Invalid email format"%string).
Proof. reflexivity. Qed.

Example validate_email_no_at :
  validate_email (str "ab.com") = (false, "Invalid email format"%string).
Proof. reflexivity. Qed.

Example validate_password_no_upper :
  validate_password (str "longenough") = (false, password_no_upper).
Proof. reflexivity. Qed.

Example date_boundary :
  date 86399 = 0 /\ date 86400 = 1 /\ date_now_minus_days (8 * 86400 + 5) 7 = 1.
Proof. repeat split. Qed.

End Examples.

(* ================================================================= *)
(** * The claims *)

Lemma alice_valid : valid_fields (str "alice_1") (str "a@b.com") (str "Abcdef1!").
Proof. repeat split; vm_compute; reflexivity. Qed.

Lemma alice_registered :
  fst (signup (env_at 1000) (str "alice_1") (str "a@b.com") (str "Abcdef1!")
              (Some (str "happy")) true init_db)
  = (Registered 1 (str "alice_1") (str "a@b.com") (Some (str "happy")) 1000, 201).
Proof.
  destruct (signup_registers (env_at 1000) (Some (str "happy")) init_db
              alice_valid eq_refl eq_refl eq_refl) as (h & _ & ->).
  reflexivity.
Qed.

Lemma alice_db_users :
  exists h,
    users alice_db
    = [new_user (env_at 1000) (str "alice_1") (str "a@b.com") h
         (token_hex (env_at 1000) 16) (Some (str "happy")) init_db].
Proof.
  unfold alice_db.
  destruct (signup_registers (env_at 1000) (Some (str "happy")) init_db
              alice_valid eq_refl eq_refl eq_refl) as (h & _ & ->).
  exists h. reflexivity.
Qed.

(** The scenario: a second registration with the same email and another
    username is refused for the email, and one with the same username for
    the username; verification with the registered password returns id 1. *)
Example scenario_same_email :
  signup (env_at 1100) (str "bob_2") (str "a@b.com") (str "Abcdef1!") None true
         alice_db
  = (DuplicateEmail, alice_db).
Proof.
  rewrite signup_unfold. destruct alice_db_users as (h & ->). reflexivity.
Qed.

Example scenario_same_username_and_email :
  signup (env_at 1100) (str "alice_1") (str "a@b.com") (str "Abcdef1!") None true
         alice_db
  = (DuplicateUsername, alice_db).
Proof.
  rewrite signup_unfold. destruct alice_db_users as (h & ->). reflexivity.
Qed.

Example scenario_verify :
  fst (verify_login (env_at 2000) (str "a@b.com") (str "Abcdef1!") alice_db)
  = (LoggedIn 1 (str "alice_1") (str "a@b.com"), 200).
Proof. unfold alice_db. eapply registered_then_verified_now, alice_registered. Qed.

Example scenario_unknown_email :
  verify_login (env_at 2000) (str "c@d.org") (str "Abcdef1!") alice_db
  = (UserNotFound, alice_db).
Proof.
  rewrite verify_login_unfold. destruct alice_db_users as (h & ->). reflexivity.
Qed.

(** C1: after a registration that succeeds, [verify_login] with the same
    email and password succeeds and returns the id, username and email that
    the registration returned; this holds right after the registration and
    after any further requests. *)
Theorem signup_then_verify e username email password mood agreed d
    i username' email' mood' created :
  fst (signup e username email password mood agreed d)
    = (Registered i username' email' mood' created, 201) ->
  forall e' rs,
    fst (verify_login e' email password
           (run rs (snd (signup e username email password mood agreed d))))
    = (LoggedIn i username' email', 200).
Proof.
  intros H e' rs. apply signup_registered in H.
  destruct H as (h & salt & Hh & _ & _ & _ & Fe & Hi & -> & -> & _ & _ & ->).
  (* the new row is the one found under the email, now and later *)
  assert (Hrow : option_map credentials
                   (find (by_email email)
                      (users (run rs (Db (users d ++
                                [new_user e username email h salt mood d])
                                (login_attempts d) i))))
                 = Some (i, username, email, h, salt)).
  { apply run_find_credentials. cbn [users]. rewrite find_app, Fe.
    cbn [find]. unfold by_email at 1. cbn [User.email new_user].
    rewrite str_eqb_refl, Hi. reflexivity. }
  (* and hashing the password with the stored salt gives the stored hash *)
  apply hash_password_again with (e' := e') in Hh.
  erewrite verify_login_ok; [reflexivity | exact Hrow | exact Hh].
Qed.

Lemma signup_then_verify_witness :
  fst (verify_login (env_at 2000) (str "a@b.com") (str "Abcdef1!")
         (run [GetUsers; GetStats (env_at 1500)] alice_db))
  = (LoggedIn 1 (str "alice_1") (str "a@b.com"), 200).
Proof.
  exact (signup_then_verify (env_at 1000) (str "alice_1") (str "a@b.com")
           (str "Abcdef1!") (Some (str "happy")) true init_db
           alice_registered (env_at 2000) [GetUsers; GetStats (env_at 1500)]).
Defined.


(** C10: when [verify_login] answers "User not found" or "Invalid password"
    the database is the one it was called on. *)
Theorem verify_login_failure_keeps_db e email password d :
  fst (verify_login e email password d) = UserNotFound
  \/ fst (verify_login e email password d) = InvalidCredentials ->
  snd (verify_login e email password d) = d.
Proof.
  intros H. apply verify_login_failed. intros i u m E.
  rewrite E in H. destruct H as [H|H]; discriminate.
Qed.

Lemma verify_login_failure_keeps_db_witness :
  snd (verify_login (env_at 2000) (str "c@d.org") (str "Abcdef1!") alice_db)
  = alice_db.
Proof.
  apply verify_login_failure_keeps_db. left.
  rewrite scenario_unknown_email. reflexivity.
Defined.

(** C4: [signup] answers with the message of the first validator that
    rejects its field (username, then email, then password); with valid
    fields and terms not agreed, with the terms message; with terms agreed, a
    stored user of that username gives "Username already exists", whether
    or not the email is stored too, and otherwise a stored user of that
    email gives "Email already registered".  None of these writes. *)
Theorem signup_rejections e username email password mood agreed d :
  (fst (validate_username username) = false ->
     signup e username email password mood agreed d
     = (ValidationError (snd (validate_username username)), d))
  /\ (fst (validate_username username) = true ->
      fst (validate_email email) = false ->
     signup e username email password mood agreed d
     = (ValidationError (snd (validate_email email)), d))
  /\ (fst (validate_username username) = true ->
      fst (validate_email email) = true ->
      fst (validate_password password) = false ->
     signup e username email password mood agreed d
     = (ValidationError (snd (validate_password password)), d))
  /\ (valid_fields username email password -> agreed = false ->
     signup e username email password mood agreed d = (TermsNotAccepted, d))
  /\ (valid_fields username email password -> agreed = true ->
      In username (map User.username (users d)) ->
     signup e username email password mood agreed d = (DuplicateUsername, d))
  /\ (valid_fields username email password -> agreed = true ->
      ~ In username (map User.username (users d)) ->
      In email (map User.email (users d)) ->
     signup e username email password mood agreed d = (DuplicateEmail, d))
  /\ DuplicateUsername <> DuplicateEmail.
Proof.
  rewrite signup_unfold. unfold valid_fields.
  repeat split.
  - intros ->. reflexivity.
  - intros -> ->. reflexivity.
  - intros -> -> ->. reflexivity.
  - intros (-> & -> & ->) ->. reflexivity.
  - intros (-> & -> & ->) -> Hin. simpl.
    destruct (find (by_username username) (users d)) eqn:F; [reflexivity|].
    apply find_by_username_none in F. contradiction.
  - intros (-> & -> & ->) -> Hu He. simpl.
    apply find_by_username_none in Hu. rewrite Hu.
    destruct (find (by_email email) (users d)) eqn:F; [reflexivity|].
    apply find_by_email_none in F. contradiction.
  - discriminate.
Qed.

(** C8 (as the code has it): no request writes to [login_attempts]; the
    table is empty after any sequence of requests on a fresh database, so
    no record is ever changed or deleted, and none is ever created. *)
Theorem login_attempts_never_written :
  (forall r d, login_attempts (snd (handle r d)) = login_attempts d)
  /\ (forall e email password d,
        login_attempts (snd (verify_login e email password d)) = login_attempts d)
  /\ (forall rs, login_attempts (run rs init_db) = []).
Proof.
  split; [exact handle_login_attempts|]. split.
  - intros e email password d. apply verify_login_attempts.
  - intros rs. now rewrite run_login_attempts.
Qed.

(** C8 (as stated) fails: a failed and a successful verification, and no
    [LoginAttempt] afterwards. *)
Lemma verify_login_records_nothing :
  (fst (verify_login (env_at 2000) (str "a@b.com") (str "Abcdef1!") init_db)
     = UserNotFound
   /\ login_attempts
        (snd (verify_login (env_at 2000) (str "a@b.com") (str "Abcdef1!") init_db))
      = [])
  /\ (fst (verify_login (env_at 2000) (str "a@b.com") (str "Abcdef1!") alice_db)
        = (LoggedIn 1 (str "alice_1") (str "a@b.com"), 200)
      /\ login_attempts
           (snd (verify_login (env_at 2000) (str "a@b.com") (str "Abcdef1!") alice_db))
         = []).
Proof.
  split; [split; reflexivity|]. unfold alice_db. split.
  - eapply registered_then_verified_now, alice_registered.
  - rewrite verify_login_attempts, signup_login_attempts. reflexivity.
Qed.

(** C9: in every database the server can reach no two users share a
    username and no two share an email; and whatever requests follow, the
    users that are there stay, in place, with every column other than
    [last_login] as it was. *)
Theorem users_unique_and_frozen d :
  reachable d ->
  NoDup (map User.username (users d))
  /\ NoDup (map User.email (users d))
  /\ (forall r,
        map frozen (firstn (List.length (users d)) (users (snd (handle r d))))
        = map frozen (users d))
  /\ (forall rs,
        map frozen (firstn (List.length (users d)) (users (run rs d)))
        = map frozen (users d)).
Proof.
  intros H. destruct (reachable_distinct H) as (Hu & He & _).
  split; [exact Hu|]. split; [exact He|]. split.
  - intros r. apply handle_frozen.
  - intros rs. apply run_frozen.
Qed.

Lemma users_unique_and_frozen_witness :
  NoDup (map User.username (users alice_db))
  /\ NoDup (map User.email (users alice_db))
  /\ (forall r,
        map frozen (firstn (List.length (users alice_db))
                      (users (snd (handle r alice_db))))
        = map frozen (users alice_db))
  /\ (forall rs,
        map frozen (firstn (List.length (users alice_db)) (users (run rs alice_db)))
        = map frozen (users alice_db)).
Proof.
  apply users_unique_and_frozen. unfold alice_db.
  apply reachable_signup, reach_init.
Defined.




(* ================================================================= *)
(** * Further properties *)

(* ================================================================= *)
(** ** [validate_email] *)

Section Email.

Lemma matches_cat_inv a b s :
  matches (Cat a b) s -> exists u v, s = u ++ v /\ matches a u /\ matches b v.
Proof. intros H. inversion H; subst. eauto. Qed.

Lemma matches_lit_inv c s : matches (Lit c) s -> s = [c].
Proof. intros H. inversion H; subst. reflexivity. Qed.

Lemma matches_atleast2_class cs u :
  matches (AtLeast2 (Class cs)) u <->
  (2 <= List.length u)%nat /\ Forall (fun c => in_charset cs c = true) u.
Proof.
  unfold AtLeast2. split.
  - intros H. apply matches_cat_inv in H. destruct H as (x & y & -> & Hx & Hy).
    inversion Hx; subst. apply matches_plus_class in Hy. destruct Hy as [Hne Hall].
    simpl. split.
    + destruct y; [congruence | simpl; lia].
    + constructor; assumption.
  - intros [Hlen Hall]. destruct Hall as [|c u Hc Hu]; [simpl in Hlen; lia|].
    change (c :: u) with ([c] ++ u). constructor; [now constructor|].
    apply matches_plus_class. split; [|assumption].
    intros ->. simpl in Hlen. lia.
Qed.

Ltac plain_class :=
  unfold in_charset, in_ranges, is_email_local, is_email_domain, is_letter,
         is_alnum, is_upper, is_lower, is_digit, char in *;
  simpl; eval_ord;
  rewrite ?orb_false_r; repeat rewrite orb_true_iff;
  repeat rewrite andb_true_iff; repeat rewrite Z.leb_le;
  lia.

Lemma email_local_spec c :
  in_charset (Charset false
      [rng "a" "z"; rng "A" "Z"; rng "0" "9";
       one "."; one "_"; one "%"; one "+"; one "-"]) c = true
  <-> is_email_local c.
Proof. plain_class. Qed.

Lemma email_domain_spec c :
  in_charset (Charset false
      [rng "a" "z"; rng "A" "Z"; rng "0" "9"; one "."; one "-"]) c = true
  <-> is_email_domain c.
Proof. plain_class. Qed.

Lemma email_tld_spec c :
  in_charset (Charset false [rng "a" "z"; rng "A" "Z"]) c = true <-> is_letter c.
Proof. plain_class. Qed.

Lemma matches_email_body s : matches (body email_pattern) s <-> email_shape s.
Proof.
  unfold email_pattern, email_shape; cbn [body]. split.
  - intros H.
    apply matches_cat_inv in H. destruct H as (local & r1 & -> & Hl & H).
    apply matches_cat_inv in H. destruct H as (at_ & r2 & -> & Ha & H).
    apply matches_cat_inv in H. destruct H as (domain & r3 & -> & Hd & H).
    apply matches_cat_inv in H. destruct H as (dot & tld & -> & Hdot & Ht).
    apply matches_lit_inv in Ha, Hdot. subst at_ dot.
    apply matches_plus_class in Hl, Hd. apply matches_atleast2_class in Ht.
    destruct Hl as [Hl1 Hl2], Hd as [Hd1 Hd2], Ht as [Ht1 Ht2].
    exists local, domain, tld. simpl. repeat split; auto.
    + exact (proj1 (@Forall_iff _ _ _ local email_local_spec) Hl2).
    + exact (proj1 (@Forall_iff _ _ _ domain email_domain_spec) Hd2).
    + exact (proj1 (@Forall_iff _ _ _ tld email_tld_spec) Ht2).
  - intros (local & domain & tld & -> & Hl1 & Hl2 & Hd1 & Hd2 & Ht1 & Ht2).
    constructor.
    { apply matches_plus_class. split; [assumption|].
      exact (proj2 (@Forall_iff _ _ _ local email_local_spec) Hl2). }
    change (ord "@" :: domain ++ ord "." :: tld)
      with ([ord "@"] ++ domain ++ [ord "."] ++ tld).
    constructor; [constructor|]. constructor.
    { apply matches_plus_class. split; [assumption|].
      exact (proj2 (@Forall_iff _ _ _ domain email_domain_spec) Hd2). }
    constructor; [constructor|].
    apply matches_atleast2_class. split; [assumption|].
    exact (proj2 (@Forall_iff _ _ _ tld email_tld_spec) Ht2).
Qed.

Lemma re_match_email s :
  re_match email_pattern s = true <->
  exists t, email_shape t /\ (s = t \/ s = t ++ [newline]).
Proof.
  unfold re_match. rewrite match_here_spec. split.
  - intros (u & v & -> & Hu & Hv). exists u. split; [now apply matches_email_body|].
    change (at_end email_pattern v) with (at_dollar v) in Hv.
    apply at_dollar_spec in Hv. destruct Hv as [-> | ->];
      [left; now rewrite app_nil_r | right; reflexivity].
  - intros (t & Ht & Hs). apply matches_email_body in Ht.
    destruct Hs as [-> | ->].
    + exists t, []. rewrite app_nil_r. auto.
    + exists t, [newline]. auto.
Qed.

End Email.

Section ValidatedFields.













End ValidatedFields.

(** X1: [validate_email] accepts exactly the strings [local@domain.tld],
    with a non-empty local part over letters, digits and [._%+-], a
    non-empty domain over letters, digits, dots and dashes, and at least two
    letters after the last dot, optionally followed by one newline (the
    pattern ends in [$]); every other string gets "Invalid email format". *)
Theorem validate_email_spec (s : pystr) :
  (validate_email s = (true, ""%string) <->
     exists t, email_shape t /\ (s = t \/ s = t ++ [newline]))
  /\ (validate_email s <> (true, ""%string) ->
      validate_email s = (false, "Invalid email format"%string)).
Proof.
  rewrite <- re_match_email. unfold validate_email.
  destruct (re_match email_pattern s); simpl; split.
  - split; reflexivity.
  - intros H. now contradiction H.
  - split; discriminate.
  - reflexivity.
Qed.



(* ================================================================= *)
(** ** [get_users] *)

Section Listing.

Variable A : Type.
Variable key : A -> Z.

Let before (a b : A) : bool := key b <=? key a.
Let descending (a b : A) : Prop := key b <= key a.

Lemma insert_sorted_descending x l :
  StronglySorted descending l ->
  StronglySorted descending (insert_sorted before x l).
Proof.
  induction 1 as [|y l Hl IH Hy]; simpl.
  - repeat constructor.
  - unfold before at 1. destruct (Z.leb_spec (key x) (key y)) as [Hxy|Hxy].
    + constructor; [exact IH|].
      apply (Permutation_Forall (Permutation_sym (insert_sorted_perm before x l))).
      constructor; [exact Hxy | exact Hy].
    + constructor; [now constructor|].
      constructor; [unfold descending; lia|].
      revert Hy. apply Forall_impl. unfold descending. intros z Hz. lia.
Qed.

Lemma order_by_descending l : StronglySorted descending (order_by before l).
Proof.
  unfold order_by. induction l as [|x l IH]; simpl; [constructor|].
  now apply insert_sorted_descending.
Qed.

End Listing.

Lemma StronglySorted_map {A B : Type} (f : A -> B) (R : B -> B -> Prop) l :
  StronglySorted (fun a b => R (f a) (f b)) l -> StronglySorted R (map f l).
Proof.
  induction 1 as [|a l Hl IH Ha]; simpl; constructor; [assumption|].
  rewrite Forall_map. exact Ha.
Qed.

(** X3: [get_users] answers 200 with the public fields (id, username,
    email, mood, created_at) of every stored user, each user once, ordered
    by [created_at] descending; the count is the number of stored users;
    neither hash nor salt is in the answer, and nothing is written. *)
Theorem get_users_spec (d : db) :
  exists rows,
    get_users d = ((UserList rows (Z.of_nat (List.length (users d))), 200), d)
    /\ Permutation rows (map public_fields (users d))
    /\ StronglySorted newest_first rows
    /\ List.length rows = List.length (users d).
Proof.
  set (sorted := order_by (fun a b => User.created_at b <=? User.created_at a)
                          (users d)).
  assert (Hperm : Permutation sorted (users d)) by apply order_by_perm.
  exists (map public_fields sorted). repeat split.
  - unfold get_users. fold sorted. rewrite length_map.
    now rewrite (Permutation_length Hperm).
  - now apply Permutation_map.
  - apply StronglySorted_map. unfold newest_first, public_fields; simpl.
    apply (order_by_descending User.created_at).
  - rewrite length_map. now apply Permutation_length.
Qed.

(* ================================================================= *)
(** ** [signup]: when it registers and what it writes *)

Section SignupOutcome.

Variables (e : env) (username email password : pystr) (mood : option pystr)
          (agreed : bool) (d : db).

Lemma hash_password_fresh_none :
  hash_password e password None = None <-> encode_utf8 password = None.
Proof.
  rewrite hash_password_fresh.
  destruct (encode_utf8 password); split; congruence.
Qed.

(** The status of the answer, case by case. *)
Lemma signup_status_cases :
  (status (signup e username email password mood agreed d) = 400
   /\ ~ (valid_fields username email password /\ agreed = true))
  \/ (status (signup e username email password mood agreed d) = 409
      /\ valid_fields username email password /\ agreed = true
      /\ (In username (map User.username (users d))
          \/ In email (map User.email (users d))))
  \/ (valid_fields username email password /\ agreed = true
      /\ ~ In username (map User.username (users d))
      /\ ~ In email (map User.email (users d))
      /\ ((status (signup e username email password mood agreed d) = 500
           /\ encode_utf8 password = None)
          \/ (status (signup e username email password mood agreed d) = 201
              /\ encode_utf8 password <> None))).
Proof.
  unfold status, valid_fields. rewrite signup_unfold.
  destruct (fst (validate_username username)); simpl;
    [|left; split; [reflexivity | intros [[? _] _]; discriminate]].
  destruct (fst (validate_email email)); simpl;
    [|left; split; [reflexivity | intros [(_ & ? & _) _]; discriminate]].
  destruct (fst (validate_password password)); simpl;
    [|left; split; [reflexivity | intros [(_ & _ & ?) _]; discriminate]].
  destruct agreed; simpl;
    [|left; split; [reflexivity | intros [_ ?]; discriminate]].
  destruct (find (by_username username) (users d)) eqn:Fu.
  { right; left. repeat split; auto. left.
    destruct (in_dec pystr_eq_dec username (map User.username (users d)))
      as [Hin|Hn]; [exact Hin|].
    apply find_by_username_none in Hn. congruence. }
  destruct (find (by_email email) (users d)) eqn:Fe.
  { right; left. repeat split; auto. right.
    destruct (in_dec pystr_eq_dec email (map User.email (users d)))
      as [Hin|Hn]; [exact Hin|].
    apply find_by_email_none in Hn. congruence. }
  apply find_by_username_none in Fu. apply find_by_email_none in Fe.
  right; right. repeat split; auto.
  destruct (hash_password e password None) as [[h salt]|] eqn:Hh.
  - right. split; [reflexivity|]. intros Hn.
    apply hash_password_fresh_none in Hn. congruence.
  - left. split; [reflexivity|]. now apply hash_password_fresh_none.
Qed.

End SignupOutcome.

Section SignupWrites.

Variables (e : env) (username email password : pystr) (mood : option pystr)
          (agreed : bool) (d : db).

Lemma signup_created_response :
  status (signup e username email password mood agreed d) = 201 ->
  exists i c,
    fst (signup e username email password mood agreed d)
    = (Registered i username email mood c, 201).
Proof.
  unfold status. rewrite signup_unfold.
  unfold ValidationError, TermsNotAccepted, DuplicateUsername, DuplicateEmail.
  destruct (negb (fst (validate_username username))); [discriminate|].
  destruct (negb (fst (validate_email email))); [discriminate|].
  destruct (negb (fst (validate_password password))); [discriminate|].
  destruct (negb agreed); [discriminate|].
  destruct (find (by_username username) (users d)); [discriminate|].
  destruct (find (by_email email) (users d)); [discriminate|].
  destruct (hash_password e password None) as [[h salt]|]; [|discriminate].
  intros _. cbn [fst]. eauto.
Qed.

Lemma signup_unchanged :
  status (signup e username email password mood agreed d) <> 201 ->
  snd (signup e username email password mood agreed d) = d.
Proof.
  unfold status. rewrite signup_unfold.
  destruct (negb (fst (validate_username username))); [reflexivity|].
  destruct (negb (fst (validate_email email))); [reflexivity|].
  destruct (negb (fst (validate_password password))); [reflexivity|].
  destruct (negb agreed); [reflexivity|].
  destruct (find (by_username username) (users d)); [reflexivity|].
  destruct (find (by_email email) (users d)); [reflexivity|].
  destruct (hash_password e password None) as [[h salt]|]; [|reflexivity].
  cbn [fst snd]. congruence.
Qed.

(** The row a signup answering 201 has appended. *)
Lemma signup_created_row :
  status (signup e username email password mood agreed d) = 201 ->
  exists row,
    snd (signup e username email password mood agreed d)
      = Db (users d ++ [row]) (login_attempts d) (User.id row)
    /\ fst (signup e username email password mood agreed d)
       = (Registered (User.id row) username email mood (current_timestamp e), 201)
    /\ (forall u, In u (users d) -> User.id u < User.id row)
    /\ users_seq d < User.id row
    /\ User.username row = username /\ User.email row = email
    /\ User.mood row = mood /\ User.agreed_to_terms row = true
    /\ User.created_at row = current_timestamp e
    /\ User.last_login row = None
    /\ User.password_salt row = token_hex e 16
    /\ (forall e', hash_password e' password (Some (User.password_salt row))
                   = Some (User.password_hash row, User.password_salt row))
    /\ valid_fields username email password.
Proof.
  intros H. destruct (signup_created_response H) as (i & c & Hr).
  destruct (signup_registered _ _ _ _ _ _ _ Hr)
    as (h & salt & Hh & Hv & _ & _ & _ & Hi & _ & _ & _ & Hc & Hd).
  exists (new_user e username email h salt mood d).
  rewrite Hr, Hd, Hi, Hc. cbn [new_user User.id User.username User.email
    User.mood User.agreed_to_terms User.created_at User.last_login
    User.password_salt User.password_hash].
  repeat split; auto.
  - intros u Hu. apply max_rowid_bound in Hu. lia.
  - lia.
  - apply hash_password_some in Hh.
    destruct Hh as (pw & sl & _ & _ & Hs & _). exact Hs.
  - intros e'. eapply hash_password_again, Hh.
  - apply Hv.
  - apply Hv.
  - apply Hv.
Qed.

End SignupWrites.


(** X5: [signup] writes only when it answers 201; then it has appended one
    row, whose id is larger than every id in the table and than the
    counter, which holds the given username, email and mood, the terms flag
    set, the clock as [created_at], no [last_login], the salt from
    [token_hex(16)] and the hash that [hash_password] gives the password
    with that salt; the row's id is [lastrowid] and the new counter, and the
    answer shows the id, username, email, mood and [created_at] of the row. *)
Theorem signup_writes_one_row e username email password mood agreed d :
  (status (signup e username email password mood agreed d) <> 201 ->
   snd (signup e username email password mood agreed d) = d)
  /\ (status (signup e username email password mood agreed d) = 201 ->
      exists row,
        snd (signup e username email password mood agreed d)
          = Db (users d ++ [row]) (login_attempts d) (User.id row)
        /\ fst (signup e username email password mood agreed d)
           = (Registered (User.id row) username email mood
                         (current_timestamp e), 201)
        /\ (forall u, In u (users d) -> User.id u < User.id row)
        /\ users_seq d < User.id row
        /\ User.username row = username /\ User.email row = email
        /\ User.mood row = mood /\ User.agreed_to_terms row = true
        /\ User.created_at row = current_timestamp e
        /\ User.last_login row = None
        /\ User.password_salt row = token_hex e 16
        /\ (forall e', hash_password e' password (Some (User.password_salt row))
                       = Some (User.password_hash row, User.password_salt row))).
Proof.
  split; [apply signup_unchanged|]. intros H.
  destruct (signup_created_row e username email password mood agreed d H)
    as (row & H1 & H2 & H3 & H4 & H5 & H6 & H7 & H8 & H9 & H10 & H11 & H12 & _).
  exists row. repeat split; assumption.
Qed.

(* ================================================================= *)
(** ** Invariants of the databases the server reaches *)

Section Reached.

(** A request that does not answer 201 at most sets one [last_login]; one
    that does is a signup and appends its row. *)
Lemma handle_cases r d :
  (status (handle r d) <> 201
   /\ (snd (handle r d) = d
       \/ exists now uid, snd (handle r d) = update_last_login now uid d))
  \/ (status (handle r d) = 201
      /\ exists e username email password mood h salt,
           hash_password e password None = Some (h, salt)
           /\ valid_fields username email password
           /\ snd (handle r d)
              = Db (users d ++ [new_user e username email h salt mood d])
                   (login_attempts d)
                   (User.id (new_user e username email h salt mood d))).
Proof.
  destruct r as [e username email password mood agreed| |e email password|e];
    cbn [handle].
  - destruct (Z.eq_dec (status (signup e username email password mood agreed d)) 201)
      as [H|H].
    + right. split; [exact H|].
      destruct (signup_created_response _ _ _ _ _ _ _ H) as (i & c & Hr).
      destruct (signup_registered _ _ _ _ _ _ _ Hr)
        as (h & salt & Hh & Hv & _ & _ & _ & Hi & _ & _ & _ & _ & Hd).
      exists e, username, email, password, mood, h, salt.
      rewrite Hd, Hi. auto.
    + left. split; [exact H|]. left. now apply signup_unchanged.
  - left. split; [discriminate | left; reflexivity].
  - left. unfold status. rewrite verify_login_unfold.
    unfold UserNotFound, InvalidCredentials.
    destruct (find (by_email email) (users d)) as [user|];
      [|split; [discriminate | left; reflexivity]].
    destruct (hash_password _ _ _) as [[h s]|];
      [|split; [discriminate | left; reflexivity]].
    destruct (str_eqb h (User.password_hash user));
      split; try discriminate; [right | left; reflexivity].
    exists (current_timestamp e), (User.id user). reflexivity.
  - left. split; [discriminate | left; reflexivity].
Qed.

Lemma run_invariant (P : db -> Prop) :
  (forall r d, P d -> P (snd (handle r d))) ->
  forall rs d, P d -> P (run rs d).
Proof.
  intros Hstep. induction rs as [|r rs IH]; intros d Hd; simpl; [exact Hd|].
  apply IH, Hstep, Hd.
Qed.

Lemma max_rowid_le l m :
  0 <= m -> (forall u, In u l -> User.id u <= m) -> max_rowid l <= m.
Proof.
  intros Hm. induction l as [|u l IH]; simpl; intros H; [exact Hm|].
  apply Z.max_lub; [apply H; auto | apply IH; auto].
Qed.

Lemma consecutive_ids_bound d u :
  consecutive_ids d -> In u (users d) ->
  1 <= User.id u <= Z.of_nat (List.length (users d)).
Proof.
  intros [Hids _] Hin.
  apply (in_map User.id) in Hin. rewrite Hids in Hin.
  apply in_map_iff in Hin. destruct Hin as (k & <- & Hk).
  apply in_seq in Hk. lia.
Qed.

Lemma handle_consecutive_ids r d :
  consecutive_ids d -> consecutive_ids (snd (handle r d)).
Proof.
  intros Hd.
  destruct (handle_cases r d)
    as [[_ [->|(now & uid & ->)]]
       |[_ (e & u & em & p & m & h & salt & _ & _ & ->)]].
  - exact Hd.
  - destruct Hd as [Hids Hseq].
    destruct (map_frozen_fields _ _ (update_last_login_frozen now uid d))
      as (_ & _ & Hid).
    unfold consecutive_ids. rewrite Hid.
    unfold update_last_login; cbn [users users_seq]. rewrite length_map. auto.
  - assert (Hmax : Z.max (users_seq d) (max_rowid (users d))
                   = Z.of_nat (List.length (users d))).
    { destruct Hd as [Hids Hseq]. rewrite Hseq. apply Z.max_l.
      apply max_rowid_le; [lia|]. intros x Hx.
      apply (@consecutive_ids_bound d x (conj Hids Hseq) Hx). }
    destruct Hd as [Hids Hseq].
    unfold consecutive_ids; cbn [users users_seq new_user User.id].
    rewrite Hmax, map_app, length_app, Hids. cbn [List.length map].
    replace (List.length (users d) + 1)%nat with (S (List.length (users d))) by lia.
    rewrite seq_S, map_app. cbn [map]. unfold new_user; cbn [User.id].
    rewrite Hmax. split; [f_equal; f_equal; lia | lia].
Qed.

(** Every stored row is well formed. *)
Lemma handle_well_formed r d :
  Forall well_formed_user (users d) ->
  Forall well_formed_user (users (snd (handle r d))).
Proof.
  intros Hd.
  destruct (handle_cases r d)
    as [[_ [->|(now & uid & ->)]]
       |[_ (e & u & em & p & m & h & salt & Hh & (Vu & Ve & Vp) & ->)]].
  - exact Hd.
  - unfold update_last_login; cbn [users]. rewrite Forall_map.
    revert Hd. apply Forall_impl. intros x Hx.
    destruct (User.id x =? uid); exact Hx.
  - cbn [users]. apply Forall_app. split; [exact Hd|]. constructor; [|constructor].
    pose proof (@hash_password_again e (env_at 0) _ _ _ _ Hh) as Hagain.
    pose proof Hagain as Hsh. apply hash_password_shape in Hsh.
    destruct Hsh as (_ & Hlen & Hhex).
    apply hash_password_some in Hh. destruct Hh as (pw & sl & _ & _ & Hs & _).
    unfold well_formed_user.
    cbn [new_user User.username User.email User.agreed_to_terms
         User.password_salt User.password_hash].
    repeat split; auto.
    + rewrite Hs. apply bytes_hex_is_hex.
    + exists p. split; [exact Vp|]. intros e'.
      rewrite <- Hagain. apply hash_password_env.
Qed.

(** The number of rows grows by one with each answer 201, and only then. *)
Lemma answers_count rs : forall d,
  List.length (users (run rs d))
  = (List.length (users d) + List.length (filter is_created (answers rs d)))%nat.
Proof.
  induction rs as [|r rs IH]; intros d; simpl; [lia|].
  rewrite IH. unfold is_created at 2.
  destruct (handle_cases r d)
    as [[Hs [->|(now & uid & ->)]]|[Hs (e & u & em & p & m & h & salt & _ & _ & ->)]];
    unfold status in Hs.
  - destruct (Z.eqb_spec (snd (fst (handle r d))) 201); [contradiction | reflexivity].
  - destruct (Z.eqb_spec (snd (fst (handle r d))) 201); [contradiction|].
    unfold update_last_login; cbn [users]. now rewrite length_map.
  - rewrite Hs. cbn [users]. rewrite length_app. simpl. lia.
Qed.

End Reached.

(** X6: after any sequence of requests on a fresh database the ids of the
    users are 1, 2, ..., n in the order of registration, and the
    [AUTOINCREMENT] counter is n: ids are never reused and have no gaps. *)
Theorem ids_are_consecutive (rs : list request) :
  map User.id (users (run rs init_db))
  = map Z.of_nat (seq 1 (List.length (users (run rs init_db))))
  /\ users_seq (run rs init_db)
     = Z.of_nat (List.length (users (run rs init_db))).
Proof.
  apply (run_invariant consecutive_ids handle_consecutive_ids rs).
  split; reflexivity.
Qed.

(** X7: every user the server ever stores has a username and an email that
    pass their validators, the terms flag set, a salt of hex digits and a
    hash of 64 hex digits, and the hash is the one [hash_password] gives,
    with the stored salt, to a password that passes [validate_password]. *)
Theorem stored_users_well_formed (rs : list request) :
  Forall well_formed_user (users (run rs init_db)).
Proof.
  apply (run_invariant (fun d => Forall well_formed_user (users d))
           handle_well_formed rs).
  constructor.
Qed.



(** X9: [total_users] of [get_stats] is the number of requests answered 201
    since the database was created. *)
Theorem total_users_counts_registrations (rs : list request) (e : env) :
  exists recent dist,
    fst (get_stats e (run rs init_db))
    = (Statistics (Z.of_nat (List.length (filter is_created (answers rs init_db))))
                  recent dist, 200).
Proof.
  unfold get_stats. cbn [fst]. rewrite (answers_count rs init_db).
  cbn [users init_db List.length Nat.add]. eexists. eexists. reflexivity.
Qed.

(* ================================================================= *)
(** ** The window of [recent_signups] *)

Section Window.





End Window.


(* ================================================================= *)
(** ** Missing fields *)

(** X11: a signup body that lacks [username], [email], [password] or [mood]
    is answered 400 "Missing field: ..." naming the first one missing in
    that order, before any validation and without a write; with the four
    present the answer is that of [signup] with [agreed_to_terms] read as
    false when absent, so a 201 needs [agreed_to_terms] present and true.
    A verify body that lacks [email] or [password] is answered 400 without a
    look at the database. *)
Theorem missing_fields (e : env) (d : db) :
  (forall data,
     (body_username data = None ->
      signup_request e data d = ((Error "Missing field: username", 400), d))
     /\ (body_username data <> None -> body_email data = None ->
         signup_request e data d = ((Error "Missing field: email", 400), d))
     /\ (body_username data <> None -> body_email data <> None ->
         body_password data = None ->
         signup_request e data d = ((Error "Missing field: password", 400), d))
     /\ (body_username data <> None -> body_email data <> None ->
         body_password data <> None -> body_mood data = None ->
         signup_request e data d = ((Error "Missing field: mood", 400), d))
     /\ (status (signup_request e data d) = 201 ->
         body_agreed_to_terms data = Some true))
  /\ (forall username email password mood agreed,
        signup_request e
          (SignupBody (Some username) (Some email) (Some password) (Some mood)
                      agreed) d
        = signup e username email password mood
            (match agreed with Some b => b | None => false end) d)
  /\ (forall data,
        body_login_email data = None \/ body_login_password data = None ->
        verify_request e data d = ((Error "Missing email or password", 400), d))
  /\ (forall email password,
        verify_request e (VerifyBody (Some email) (Some password)) d
        = verify_login e email password d).
Proof.
  split; [|split; [|split]].
  - intros [[u|] [em|] [p|] [m|] a]; cbn [body_username body_email body_password
      body_mood body_agreed_to_terms]; repeat split; intros;
      try congruence; try reflexivity;
      try (exfalso; revert H; unfold status; cbn; discriminate).
    revert H. unfold signup_request. cbn [find required_fields has_field
      String.eqb Ascii.eqb Bool.eqb is_some negb body_username body_email
      body_password body_mood body_agreed_to_terms andb].
    cbv iota beta. intros H.
    destruct (signup_status_cases e u em p m
                (match a with Some b => b | None => false end) d)
      as [[H4 _]|[[H4 _]|(_ & Ha & _)]]; try (rewrite H in H4; discriminate).
    destruct a as [[|]|]; [reflexivity | discriminate | discriminate].
  - intros. reflexivity.
  - intros [[em|] [p|]] [H|H]; cbn in H; try discriminate; reflexivity.
  - intros. reflexivity.
Qed.

(* ================================================================= *)
(** ** When [hash_password] raises *)

Section HashFailure.

Lemma encode_char_none c : encode_char c = None <-> unencodable c.
Proof.
  unfold encode_char, unencodable.
  destruct (Z.ltb_spec c 0); [split; [lia | reflexivity]|].
  destruct (Z.ltb_spec c 128); [split; [discriminate | lia]|].
  destruct (Z.ltb_spec c 2048); [split; [discriminate | lia]|].
  destruct (Z.leb_spec 55296 c); destruct (Z.leb_spec c 57343); simpl;
    try (split; [lia | reflexivity]);
    (destruct (Z.ltb_spec c 65536); [split; [discriminate | lia]|]);
    (destruct (Z.ltb_spec c 1114112); [split; [discriminate | lia]|]);
    (split; [lia | reflexivity]).
Qed.

Lemma encode_utf8_none s : encode_utf8 s = None <-> Exists unencodable s.
Proof.
  induction s as [|c s IH]; simpl.
  - split; [discriminate | intros H; inversion H].
  - rewrite Exists_cons, <- IH, <- encode_char_none.
    destruct (encode_char c); destruct (encode_utf8 s); split;
      intros H; try discriminate; try reflexivity; auto;
      destruct H; discriminate.
Qed.

End HashFailure.

(** X12: [hash_password] fails exactly when [encode('utf-8')] raises: with
    a salt given, when the password or the salt holds a lone surrogate (or
    an integer that is no code point); with no salt given, when the
    password does, since the salt from [token_hex(16)] is two hex digits for
    each random byte and always encodes.  On success the salt returned is
    the one given, or the fresh one. *)
Theorem hash_password_fails_iff (e : env) (password : pystr) :
  (forall salt,
     hash_password e password (Some salt) = None
     <-> Exists unencodable password \/ Exists unencodable salt)
  /\ (hash_password e password None = None <-> Exists unencodable password)
  /\ is_hex (token_hex e 16)
  /\ List.length (token_hex e 16) = (2 * List.length (urandom e 16))%nat
  /\ (forall salt0 h s,
        hash_password e password salt0 = Some (h, s) ->
        s = match salt0 with Some s0 => s0 | None => token_hex e 16 end).
Proof.
  split; [|split; [|split; [|split]]].
  - intros salt. rewrite <- !encode_utf8_none. unfold hash_password.
    destruct (encode_utf8 password); destruct (encode_utf8 salt); split;
      intros H; try discriminate; try reflexivity; auto;
      destruct H; discriminate.
  - rewrite <- encode_utf8_none. apply hash_password_fresh_none.
  - apply bytes_hex_is_hex.
  - apply bytes_hex_length.
  - intros salt0 h s H. apply hash_password_some in H.
    destruct H as (pw & sl & _ & _ & Hs & _). rewrite Hs.
    destruct salt0; reflexivity.
Qed.

(* ================================================================= *)
(** ** Later requests *)

Section Later.

Lemma In_firstn {A : Type} (x : A) n l : In x (firstn n l) -> In x l.
Proof.
  revert l. induction n as [|n IH]; intros [|a l]; simpl; try tauto.
  intros [->|H]; auto.
Qed.

(** Usernames and emails that are stored stay stored. *)
Lemma run_keeps_names rs d :
  (forall x, In x (map User.username (users d)) ->
             In x (map User.username (users (run rs d))))
  /\ (forall x, In x (map User.email (users d)) ->
                In x (map User.email (users (run rs d)))).
Proof.
  destruct (run_frozen rs d) as [_ Hfr].
  destruct (map_frozen_fields _ _ Hfr) as (Hu & He & _).
  split; intros x Hx.
  - rewrite <- Hu in Hx. apply in_map_iff in Hx. destruct Hx as (u & <- & Hin).
    apply in_map, (In_firstn _ _ _ Hin).
  - rewrite <- He in Hx. apply in_map_iff in Hx. destruct Hx as (u & <- & Hin).
    apply in_map, (In_firstn _ _ _ Hin).
Qed.

Lemma find_by_username_some username l :
  In username (map User.username l) ->
  exists u, find (by_username username) l = Some u.
Proof.
  intros H. destruct (find (by_username username) l) as [u|] eqn:F; [eauto|].
  apply find_by_username_none in F. contradiction.
Qed.

Lemma find_by_email_some email l :
  In email (map User.email l) -> exists u, find (by_email email) l = Some u.
Proof.
  intros H. destruct (find (by_email email) l) as [u|] eqn:F; [eauto|].
  apply find_by_email_none in F. contradiction.
Qed.

(** A signup with valid fields and the terms agreed on a database that has
    the username, or the email. *)
Lemma signup_taken e username email password mood d :
  valid_fields username email password ->
  (In username (map User.username (users d)) ->
   signup e username email password mood true d = (DuplicateUsername, d))
  /\ (In email (map User.email (users d)) ->
      status (signup e username email password mood true d) = 409).
Proof.
  intros (Vu & Ve & Vp). unfold status. rewrite signup_unfold, Vu, Ve, Vp.
  cbn [negb]. split.
  - intros H. destruct (find_by_username_some _ _ H) as (u & ->). reflexivity.
  - intros H. destruct (find_by_email_some _ _ H) as (u & ->).
    destruct (find (by_username username) (users d)); reflexivity.
Qed.

(** The answer of [verify_login] depends on the database through the
    credentials of the user found under the email only. *)
Lemma verify_login_by_credentials e email password d1 d2 :
  option_map credentials (find (by_email email) (users d1))
  = option_map credentials (find (by_email email) (users d2)) ->
  fst (verify_login e email password d1) = fst (verify_login e email password d2).
Proof.
  rewrite !verify_login_unfold.
  destruct (find (by_email email) (users d1)) as [u1|];
    destruct (find (by_email email) (users d2)) as [u2|];
    simpl; try discriminate; [|reflexivity].
  unfold credentials. intros H. injection H as -> -> -> -> ->.
  destruct (hash_password e password (Some (User.password_salt u2)))
    as [[h s]|]; [|reflexivity].
  destruct (str_eqb h (User.password_hash u2)); reflexivity.
Qed.

End Later.

(** X13: a username and an email, once registered, stay taken: after a
    signup answered 201, whatever requests follow, a signup with valid
    fields and the terms agreed is answered "Username already exists" when
    it brings the same username, and 409 when it brings the same email. *)
Theorem registered_names_stay_taken e username email password mood agreed d
    rs e2 username2 email2 password2 mood2 :
  status (signup e username email password mood agreed d) = 201 ->
  valid_fields username2 email2 password2 ->
  signup e2 username email2 password2 mood2 true
    (run rs (snd (signup e username email password mood agreed d)))
  = (DuplicateUsername,
     run rs (snd (signup e username email password mood agreed d)))
  /\ status (signup e2 username2 email password2 mood2 true
               (run rs (snd (signup e username email password mood agreed d))))
     = 409.
Proof.
  intros H (Vu2 & Ve2 & Vp2).
  destruct (signup_created_row e username email password mood agreed d H)
    as (row & Hd & _ & _ & _ & Hu & He & _ & _ & _ & _ & _ & _ & (Vu & Ve & _)).
  destruct (run_keeps_names rs (snd (signup e username email password mood agreed d)))
    as [Ku Ke].
  assert (Iu : In username
                 (map User.username
                    (users (snd (signup e username email password mood agreed d))))).
  { rewrite Hd. cbn [users]. rewrite map_app, in_app_iff. right. left. exact Hu. }
  assert (Ie : In email
                 (map User.email
                    (users (snd (signup e username email password mood agreed d))))).
  { rewrite Hd. cbn [users]. rewrite map_app, in_app_iff. right. left. exact He. }
  split.
  - apply signup_taken; [repeat split; assumption | apply Ku, Iu].
  - apply signup_taken; [repeat split; assumption | apply Ke, Ie].
Qed.

Lemma alice_status :
  status (signup (env_at 1000) (str "alice_1") (str "a@b.com") (str "Abcdef1!")
            (Some (str "happy")) true init_db) = 201.
Proof. unfold status. rewrite alice_registered. reflexivity. Qed.

Lemma bob_valid : valid_fields (str "bob_2") (str "b@c.org") (str "Zyxwvu9?").
Proof. repeat split; vm_compute; reflexivity. Qed.

Lemma registered_names_stay_taken_witness :
  signup (env_at 1200) (str "alice_1") (str "b@c.org") (str "Zyxwvu9?") None true
    (run [GetUsers] alice_db)
  = (DuplicateUsername, run [GetUsers] alice_db)
  /\ status (signup (env_at 1200) (str "bob_2") (str "a@b.com") (str "Zyxwvu9?")
               None true (run [GetUsers] alice_db))
     = 409.
Proof.
  unfold alice_db.
  exact (@registered_names_stay_taken (env_at 1000) (str "alice_1") (str "a@b.com")
           (str "Abcdef1!") (Some (str "happy")) true init_db [GetUsers]
           (env_at 1200) (str "bob_2") (str "b@c.org") (str "Zyxwvu9?") None
           alice_status bob_valid).
Defined.

(** X14: for an email that is stored, the answer of [verify_login] to a
    given password is the same after any further requests: no request
    changes a stored hash or salt, removes the user or puts another user
    under the email. *)
Theorem verify_login_answer_is_stable e email password d rs :
  In email (map User.email (users d)) ->
  fst (verify_login e email password (run rs d))
  = fst (verify_login e email password d).
Proof.
  intros H. destruct (find_by_email_some _ _ H) as (u & F).
  apply verify_login_by_credentials.
  rewrite (run_find_credentials rs d email (c := credentials u)).
  - now rewrite F.
  - now rewrite F.
Qed.

Lemma verify_login_answer_is_stable_witness :
  fst (verify_login (env_at 3000) (str "a@b.com") (str "wrong")
         (run [VerifyLogin (env_at 2000) (str "a@b.com") (str "Abcdef1!");
               GetStats (env_at 2500)] alice_db))
  = fst (verify_login (env_at 3000) (str "a@b.com") (str "wrong") alice_db).
Proof.
  apply verify_login_answer_is_stable.
  destruct alice_db_users as (h & ->). left. reflexivity.
Defined.

(* ================================================================= *)
(** ** What a registration shows up as *)

Section Shown.

(** A stored user stays stored, with its frozen columns. *)
Lemma run_keeps_users rs d u :
  In u (users d) ->
  exists u', In u' (users (run rs d)) /\ frozen u' = frozen u.
Proof.
  intros Hin. destruct (run_frozen rs d) as [_ Hfr].
  apply (in_map frozen) in Hin. rewrite <- Hfr in Hin.
  apply in_map_iff in Hin. destruct Hin as (u' & E & Hin').
  exists u'. split; [apply (In_firstn _ _ _ Hin') | exact E].
Qed.

Lemma frozen_public u u' : frozen u' = frozen u -> public_fields u' = public_fields u.
Proof.
  unfold frozen, public_fields. intros H.
  injection H as -> -> -> _ _ -> _ ->. reflexivity.
Qed.

Lemma get_users_rows d :
  exists rows,
    fst (get_users d) = (UserList rows (Z.of_nat (List.length (users d))), 200)
    /\ forall u, In u (users d) -> In (public_fields u) rows.
Proof.
  unfold get_users. cbn [fst]. rewrite length_map.
  rewrite (Permutation_length (order_by_perm _ (users d))).
  eexists. split; [reflexivity|]. intros u Hu.
  apply (in_map public_fields).
  apply (Permutation_in _ (Permutation_sym (order_by_perm _ (users d)))), Hu.
Qed.

(** The distribution that [get_stats] reports. *)
Lemma get_stats_distribution e d :
  exists total recent dist,
    fst (get_stats e d) = (Statistics total recent dist, 200)
    /\ forall m c, In (m, c) dist <-> c = count_where (has_mood m) d /\ 0 < c.
Proof.
  unfold get_stats. cbn [fst]. fold by_count_desc.
  set (dist := order_by by_count_desc (group_count (moods d))).
  assert (Hperm : Permutation dist (group_count (moods d)))
    by apply order_by_perm.
  assert (Hkeys : NoDup (map fst dist)).
  { apply (Permutation_NoDup (Permutation_map fst (Permutation_sym Hperm))).
    rewrite group_count_keys. apply NoDup_nodup. }
  rewrite (dict_of_distinct _ Hkeys).
  eexists. eexists. exists dist. split; [reflexivity|].
  intros m c. rewrite <- moods_count, <- group_count_in.
  split; apply Permutation_in; [exact Hperm | exact (Permutation_sym Hperm)].
Qed.

Lemma count_where_snoc cond l la seq0 row la' seq1 :
  count_where cond (Db (l ++ [row]) la' seq1)
  = count_where cond (Db l la seq0) + (if cond row then 1 else 0).
Proof.
  unfold count_where; cbn [users]. rewrite filter_app, length_app. simpl.
  destruct (cond row); simpl; lia.
Qed.

End Shown.

(** X15: what a signup answered with is what [get_users] lists: after a
    signup answered 201 with an id and a creation time, whatever requests
    follow, the list of [get_users] has a row with that id, the username,
    the email, the mood and that creation time. *)
Theorem registered_user_is_listed e username email password mood agreed d
    i username' email' mood' created rs :
  fst (signup e username email password mood agreed d)
    = (Registered i username' email' mood' created, 201) ->
  exists rows count,
    fst (get_users (run rs (snd (signup e username email password mood agreed d))))
    = (UserList rows count, 200)
    /\ In (i, username', email', mood', created) rows.
Proof.
  intros H.
  destruct (signup_registered _ _ _ _ _ _ _ H)
    as (h & salt & _ & _ & _ & _ & _ & Hi & -> & -> & -> & -> & Hd).
  set (row := new_user e username email h salt mood d) in *.
  assert (Hin : In row (users (snd (signup e username email password mood agreed d)))).
  { rewrite Hd. cbn [users]. apply in_app_iff. right. left. reflexivity. }
  destruct (run_keeps_users rs _ _ Hin) as (u' & Hu' & Hfr).
  destruct (get_users_rows
              (run rs (snd (signup e username email password mood agreed d))))
    as (rows & Hrows & Hall).
  exists rows. eexists. split; [exact Hrows|].
  specialize (Hall u' Hu'). rewrite (frozen_public Hfr) in Hall.
  rewrite Hi. exact Hall.
Qed.

Lemma registered_user_is_listed_witness :
  exists rows count,
    fst (get_users (run [VerifyLogin (env_at 2000) (str "a@b.com") (str "Abcdef1!")]
                        alice_db))
    = (UserList rows count, 200)
    /\ In (1, str "alice_1", str "a@b.com", Some (str "happy"), 1000) rows.
Proof.
  unfold alice_db.
  exact (@registered_user_is_listed (env_at 1000) (str "alice_1") (str "a@b.com")
           (str "Abcdef1!") (Some (str "happy")) true init_db _ _ _ _ _
           [VerifyLogin (env_at 2000) (str "a@b.com") (str "Abcdef1!")]
           alice_registered).
Defined.

(** X16: a signup answered 201 with a mood raises the count of that mood
    in the next [get_stats] by one and leaves the other moods' counts as
    they were; one with a null mood leaves every count as it was; and
    [total_users] is one more than the number of users before. *)
Theorem registration_counts_in_mood_distribution
    e username email password mood agreed d e2 :
  status (signup e username email password mood agreed d) = 201 ->
  exists total recent dist,
    fst (get_stats e2 (snd (signup e username email password mood agreed d)))
    = (Statistics total recent dist, 200)
    /\ (forall m c,
          In (m, c) dist <->
          c = count_where (has_mood m) d
              + match mood with
                | Some m' => if str_eqb m' m then 1 else 0
                | None => 0
                end
          /\ 0 < c)
    /\ (forall m, mood = Some m ->
          In (m, count_where (has_mood m) d + 1) dist)
    /\ total = Z.of_nat (List.length (users d)) + 1.
Proof.
  intros H.
  destruct (signup_created_row e username email password mood agreed d H)
    as (row & Hd & _ & _ & _ & _ & _ & Hm & _).
  destruct (get_stats_distribution e2
              (snd (signup e username email password mood agreed d)))
    as (total & recent & dist & Hs & Hdist).
  assert (Hcount : forall m,
            count_where (has_mood m)
              (snd (signup e username email password mood agreed d))
            = count_where (has_mood m) d
              + match mood with
                | Some m' => if str_eqb m' m then 1 else 0
                | None => 0
                end).
  { intros m. rewrite Hd.
    rewrite (count_where_snoc (has_mood m) (users d) (login_attempts d)
               (users_seq d) row (login_attempts d) (User.id row)).
    destruct d; cbn [users login_attempts users_seq].
    unfold has_mood at 2. rewrite Hm. destruct mood; reflexivity. }
  exists total, recent, dist. split; [exact Hs|]. split; [|split].
  - intros m c. rewrite Hdist, Hcount. reflexivity.
  - intros m ->. apply Hdist. rewrite Hcount, str_eqb_refl.
    split; [reflexivity|]. unfold count_where. lia.
  - revert Hs. unfold get_stats. cbn [fst]. intros Hs. injection Hs as <- _ _.
    rewrite Hd. cbn [users]. rewrite length_app. simpl. lia.
Qed.

Lemma registration_counts_in_mood_distribution_witness :
  exists total recent dist,
    fst (get_stats (env_at 5000) alice_db) = (Statistics total recent dist, 200)
    /\ (forall m c,
          In (m, c) dist <->
          c = count_where (has_mood m) init_db
              + (if str_eqb (str "happy") m then 1 else 0)
          /\ 0 < c)
    /\ (forall m, Some (str "happy") = Some m ->
          In (m, count_where (has_mood m) init_db + 1) dist)
    /\ total = Z.of_nat (List.length (users init_db)) + 1.
Proof.
  unfold alice_db.
  exact (@registration_counts_in_mood_distribution (env_at 1000) (str "alice_1")
           (str "a@b.com") (str "Abcdef1!") (Some (str "happy")) true init_db
           (env_at 5000) alice_status).
Defined.
